(** * chattest: the conversation core of the browser chat client

    A shallow embedding of three TypeScript units:
    - [apiService] (class [APIService]): hostname normalisation, request
      headers, model listing and chat completion over [fetch];
    - [db] (class [DatabaseService]): the IndexedDB conversation store;
    - [App]: the React component whose handlers sequence a send, a new
      conversation, a deletion and a configuration save.

    JavaScript strings are sequences of code units; here they are Rocq
    strings whose characters stand for the code units 0..255.  Numbers that
    the code only tests for zero are integers.  Asynchronous code is run in
    program order: every [await] is a bind of the monad [M] below. *)

From Stdlib Require Import String Ascii List ZArith Lia Bool Arith.
Import ListNotations.
Open Scope string_scope.
Set Warnings "-register-all".

(** ** JavaScript values and the operators the source uses on them *)
Module JS.

(** A value produced by [response.json()]. *)
Inductive JSON : Type :=
| JNull
| JBool (b : bool)
| JNum (z : Z)
| JString (s : string)
| JArray (items : list JSON)
| JObject (fields : list (string * JSON)).

(** A JavaScript value: [None] is [undefined]. *)
Definition value := option JSON.

(** What a [throw] or a rejected promise carries: an [Error] instance with
    its [message], or some other value (the [ProgressEvent] of a failed
    [FileReader]).  The message of an error raised by the engine is the
    engine's own; one wording stands for it. *)
Inductive thrown : Type :=
| ErrorObj (message : string)
| NonError.

(** ToBoolean. *)
Definition truthy (v : value) : bool :=
  match v with
  | None => false
  | Some JNull => false
  | Some (JBool b) => b
  | Some (JNum z) => negb (Z.eqb z 0)
  | Some (JString s) => negb (String.eqb s "")
  | Some (JArray _) => true
  | Some (JObject _) => true
  end.

(** [a || b] *)
Definition or_else (a b : value) : value := if truthy a then a else b.

(** Own property of a parsed object: the first binding of the key. *)
Fixpoint lookup (key : string) (fields : list (string * JSON)) : value :=
  match fields with
  | [] => None
  | (k, v) :: rest => if String.eqb k key then Some v else lookup key rest
  end.

(** [v.key] for a key that no prototype defines ([choices], [message],
    [content], [data], [models], [id], [name], [model]): a [TypeError] on
    [null] and [undefined], the own property of an object, [undefined] on
    arrays and primitives. *)
Definition get (v : value) (key : string) : thrown + value :=
  match v with
  | None =>
      inl (ErrorObj ("Cannot read properties of undefined (reading '" ++ key ++ "')"))
  | Some JNull =>
      inl (ErrorObj ("Cannot read properties of null (reading '" ++ key ++ "')"))
  | Some (JObject fields) => inr (lookup key fields)
  | Some _ => inr None
  end.

(** [v?.key] *)
Definition get_opt (v : value) (key : string) : value :=
  match v with
  | Some (JObject fields) => lookup key fields
  | _ => None
  end.

(** [v[0]] for a [v] that is neither [null] nor [undefined]. *)
Definition first (v : value) : value :=
  match v with
  | Some (JArray items) => nth_error items 0
  | Some (JString (String c _)) => Some (JString (String c EmptyString))
  | Some (JObject fields) => lookup "0" fields
  | _ => None
  end.

(** [Array.isArray(v)] *)
Definition isArray (v : value) : bool :=
  match v with
  | Some (JArray _) => true
  | _ => false
  end.

(** WhiteSpace and LineTerminator code units below 256:
    TAB, LF, VT, FF, CR, SP and NBSP. *)
Definition is_space (c : ascii) : bool :=
  let n := nat_of_ascii c in
  ((9 <=? n)%nat && (n <=? 13)%nat) || (n =? 32)%nat || (n =? 160)%nat.

Fixpoint trimStart (s : string) : string :=
  match s with
  | EmptyString => EmptyString
  | String c rest => if is_space c then trimStart rest else s
  end.

Fixpoint trimEnd (s : string) : string :=
  match s with
  | EmptyString => EmptyString
  | String c rest =>
      match trimEnd rest with
      | EmptyString => if is_space c then EmptyString else String c EmptyString
      | kept => String c kept
      end
  end.

(** [s.trim()] *)
Definition trim (s : string) : string := trimEnd (trimStart s).

(** [s.startsWith(p)] *)
Definition startsWith (s p : string) : bool := String.prefix p s.

(** [s.slice(0, n)] for [n >= 0] *)
Fixpoint slice0 (n : nat) (s : string) : string :=
  match n, s with
  | S n', String c rest => String c (slice0 n' rest)
  | _, _ => EmptyString
  end.

(** [s.replace(/\/$/, '')]: the pattern matches one slash at the very end. *)
Fixpoint replace_trailing_slash (s : string) : string :=
  match s with
  | EmptyString => EmptyString
  | String c EmptyString => if Ascii.eqb c "/" then EmptyString else s
  | String c rest => String c (replace_trailing_slash rest)
  end.

(** [parts.join('')] *)
Definition join (parts : list string) : string :=
  fold_right append EmptyString parts.

(** [xs.slice(-n)]: the last [n] elements, all of them when there are fewer. *)
Definition slice_last {A : Type} (n : nat) (xs : list A) : list A :=
  skipn (length xs - n) xs.

End JS.
Import JS.

(** ** The data model ([db.ts] and [apiService.ts] interfaces) *)

Inductive Role : Type := user | assistant | system.

Record Attachment : Type := mkAttachment {
  a_name : string;
  a_type : string;
  a_data : string
}.

(** [content] is declared a string; the assistant's content is whatever the
    endpoint returned, so it is kept as a value. *)
Record Message : Type := mkMessage {
  m_role : Role;
  m_content : JSON;
  m_timestamp : Z;
  m_attachments : option (list Attachment)
}.

(** [APIConfig & { model: string }], also the type of [Conversation.apiConfig]. *)
Record Settings : Type := mkSettings {
  hostname : string;
  apiKey : option string;
  model : string
}.

Record Conversation : Type := mkConversation {
  c_id : string;
  c_title : string;
  c_messages : list Message;
  c_createdAt : Z;
  c_updatedAt : Z;
  c_apiConfig : Settings
}.

Record Model : Type := mkModel {
  md_id : value;
  md_name : value
}.

Record ChatMessage : Type := mkChatMessage {
  cm_role : Role;
  cm_content : JSON
}.

Record ChatRequest : Type := mkChatRequest {
  cr_model : string;
  cr_messages : list ChatMessage;
  cr_stream : option bool
}.

(** A browser [File]: its name, its MIME type, and what the two
    [FileReader] wrappers of [apiService] resolve to for it ([None]: the
    reader fired [onerror]). *)
Record File : Type := mkFile {
  f_name : string;
  f_type : string;
  f_text : option string;
  f_base64 : option string
}.

(** A [fetch] response: [ok], [statusText], what [text()] resolves to and
    what [json()] resolves to ([None]: the body is not JSON). *)
Record Response : Type := mkResponse {
  r_ok : bool;
  r_statusText : string;
  r_text : string;
  r_json : option JSON
}.

(** The React state of [App] that the handlers below read or write. *)
Record AppState : Type := mkAppState {
  conversations : list Conversation;
  currentConversationId : option string;
  isConfigModalOpen : bool;
  apiConfig : option Settings
}.

(** ** The world outside the handlers

    Calls made to the collaborators are logged; the answers of the clock,
    of [crypto.randomUUID], of IndexedDB and of the network are read from
    oracles indexed by the number of earlier calls. *)

Inductive Event : Type :=
| DbSave (c : Conversation)
| DbDelete (id : string)
| NetFetch (url method : string) (headers : list (string * string))
           (body : option ChatRequest)
| LocalStorageSet (key : string) (v : Settings).

Record World : Type := mkWorld {
  w_app : AppState;
  w_dbOpen : bool;
  w_store : list Conversation;
  w_localStorage : option Settings;
  w_log : list Event;
  w_clock : nat -> Z;
  w_clockReads : nat;
  w_uuid : nat -> string;
  w_uuidReads : nat;
  w_idbFault : nat -> option string;
  w_idbRequests : nat;
  w_net : nat -> string + Response;
  w_fetches : nat
}.

Inductive Outcome (A : Type) : Type :=
| Resolved (a : A)
| Rejected (e : thrown).
Arguments Resolved {A} a.
Arguments Rejected {A} e.

(** A computation that may touch the world and may throw. *)
Definition M (A : Type) : Type := World -> Outcome A * World.

Definition ret {A} (a : A) : M A := fun w => (Resolved a, w).

Definition throw {A} (e : thrown) : M A := fun w => (Rejected e, w).

Definition bind {A B} (m : M A) (k : A -> M B) : M B :=
  fun w =>
    match m w with
    | (Resolved a, w') => k a w'
    | (Rejected e, w') => (Rejected e, w')
    end.

(** [try { m } catch (error) { h error }] *)
Definition try_catch {A} (m : M A) (h : thrown -> M A) : M A :=
  fun w =>
    match m w with
    | (Resolved a, w') => (Resolved a, w')
    | (Rejected e, w') => h e w'
    end.

(** A promise that is started and neither awaited nor given a handler: its
    effects happen, its rejection reaches nobody. *)
Definition detached (m : M unit) : M unit :=
  fun w => (Resolved tt, snd (m w)).

Notation "x <- m ;; k" := (bind m (fun x => k))
  (at level 61, m at next level, right associativity).
Notation "m ;;; k" := (bind m (fun _ => k))
  (at level 61, right associativity).

(** [Promise.all(xs.map(f))] where each [f x] only reads: the results in
    order, or the rejection of a failed one. *)
Fixpoint all {A B} (f : A -> option B) (xs : list A) : option (list B) :=
  match xs with
  | [] => Some []
  | x :: rest =>
      match f x, all f rest with
      | Some y, Some ys => Some (y :: ys)
      | _, _ => None
      end
  end.

Definition settle {A} (r : option A) : M A :=
  match r with
  | Some a => ret a
  | None => throw NonError
  end.

Definition with_app (f : AppState -> AppState) (w : World) : World :=
  mkWorld (f (w_app w)) (w_dbOpen w) (w_store w) (w_localStorage w) (w_log w)
          (w_clock w) (w_clockReads w) (w_uuid w) (w_uuidReads w)
          (w_idbFault w) (w_idbRequests w) (w_net w) (w_fetches w).

Definition emit (e : Event) : M unit :=
  fun w =>
    (Resolved tt,
     mkWorld (w_app w) (w_dbOpen w) (w_store w) (w_localStorage w)
             (w_log w ++ [e])
             (w_clock w) (w_clockReads w) (w_uuid w) (w_uuidReads w)
             (w_idbFault w) (w_idbRequests w) (w_net w) (w_fetches w)).

(** [Date.now()] *)
Definition Date_now : M Z :=
  fun w =>
    (Resolved (w_clock w (w_clockReads w)),
     mkWorld (w_app w) (w_dbOpen w) (w_store w) (w_localStorage w) (w_log w)
             (w_clock w) (S (w_clockReads w)) (w_uuid w) (w_uuidReads w)
             (w_idbFault w) (w_idbRequests w) (w_net w) (w_fetches w)).

(** [crypto.randomUUID()] *)
Definition randomUUID : M string :=
  fun w =>
    (Resolved (w_uuid w (w_uuidReads w)),
     mkWorld (w_app w) (w_dbOpen w) (w_store w) (w_localStorage w) (w_log w)
             (w_clock w) (w_clockReads w) (w_uuid w) (S (w_uuidReads w))
             (w_idbFault w) (w_idbRequests w) (w_net w) (w_fetches w)).

(** [fetch(url, { method, headers, body })]: rejects with a [TypeError]
    when the network fails, resolves with the response otherwise. *)
Definition fetch (url method : string) (headers : list (string * string))
           (body : option ChatRequest) : M Response :=
  fun w =>
    let w' :=
      mkWorld (w_app w) (w_dbOpen w) (w_store w) (w_localStorage w)
              (w_log w ++ [NetFetch url method headers body])
              (w_clock w) (w_clockReads w) (w_uuid w) (w_uuidReads w)
              (w_idbFault w) (w_idbRequests w) (w_net w) (S (w_fetches w)) in
    match w_net w (w_fetches w) with
    | inl message => (Rejected (ErrorObj message), w')
    | inr response => (Resolved response, w')
    end.

(** [response.json()] *)
Definition json (response : Response) : M JSON :=
  match r_json response with
  | Some data => ret data
  | None => throw (ErrorObj "Unexpected token in JSON")
  end.

(** A property read that may throw. *)
Definition read (v : value) (key : string) : M value :=
  match get v key with
  | inl e => throw e
  | inr x => ret x
  end.

(** [xs.map(f)] for an [f] that may throw. *)
Fixpoint mapM {A B} (f : A -> M B) (xs : list A) : M (list B) :=
  match xs with
  | [] => ret []
  | x :: rest => y <- f x ;; ys <- mapM f rest ;; ret (y :: ys)
  end.

(** [a && b] *)
Definition and_then (a b : value) : value := if truthy a then b else a.

(** The value under an [if (v) return v]: [Some] exactly when [v] is truthy. *)
Definition when_truthy (v : value) : option JSON :=
  match v with
  | Some j => if truthy v then Some j else None
  | None => None
  end.

Definition items_of (v : value) : list JSON :=
  match v with
  | Some (JArray items) => items
  | _ => []
  end.

(** ** [apiService] *)
Module apiService.

Definition normalizeHostname (hostname : string) : string :=
  let normalized := trim hostname in
  let normalized :=
    if negb (startsWith normalized "http://") && negb (startsWith normalized "https://")
    then "https://" ++ normalized
    else normalized in
  replace_trailing_slash normalized.

Definition getHeaders (apiKey : option string) : list (string * string) :=
  let headers := [("Content-Type", "application/json")] in
  match apiKey with
  | Some key =>
      if truthy (Some (JString key)) then headers ++ [("Authorization", key)]
      else headers
  | None => headers
  end.

(** [config] is an [APIConfig]: only [hostname] and [apiKey] are read. *)
Definition fetchModels (config : Settings) : M (list Model) :=
  let baseUrl := normalizeHostname (hostname config) in
  let url := baseUrl ++ "/v1/models" in
  response <- fetch url "GET" (getHeaders (apiKey config)) None ;;
  if negb (r_ok response) then
    throw (ErrorObj ("Failed to fetch models: " ++ r_statusText response))
  else
    data <- json response ;;
    data_data <- read (Some data) "data" ;;
    if truthy data_data && isArray data_data then
      mapM (fun model =>
              id <- read (Some model) "id" ;;
              name <- read (Some model) "name" ;;
              ret (mkModel id (or_else name id)))
           (items_of data_data)
    else
      data_models <- read (Some data) "models" ;;
      if truthy data_models && isArray data_models then
        mapM (fun model =>
                model_model <- read (Some model) "model" ;;
                name <- read (Some model) "name" ;;
                ret (mkModel (or_else model_model name) name))
             (items_of data_models)
      else ret [].

Definition sendChatMessage (config : Settings) (request : ChatRequest) : M JSON :=
  let baseUrl := normalizeHostname (hostname config) in
  let url := baseUrl ++ "/v1/chat/completions" in
  response <- fetch url "POST" (getHeaders (apiKey config))
                    (Some (mkChatRequest (cr_model request) (cr_messages request)
                                         (Some false))) ;;
  if negb (r_ok response) then
    let errorText := r_text response in
    throw (ErrorObj ("API request failed: " ++ r_statusText response
                       ++ " - " ++ errorText))
  else
    data <- json response ;;
    choices <- read (Some data) "choices" ;;
    match when_truthy
            (and_then choices (get_opt (get_opt (first choices) "message") "content"))
    with
    | Some content => ret content
    | None =>
        message <- read (Some data) "message" ;;
        match when_truthy (get_opt message "content") with
        | Some content => ret content
        | None => throw (ErrorObj "Unexpected response format")
        end
    end.

Definition readFileAsBase64 (file : File) : option string := f_base64 file.

Definition readFileAsText (file : File) : option string := f_text file.

End apiService.

(** ** [db]: the IndexedDB conversation store *)
Module db.

(** [store.put(c)] on a store keyed by [id]. *)
Fixpoint put (c : Conversation) (records : list Conversation) : list Conversation :=
  match records with
  | [] => [c]
  | x :: rest =>
      if String.eqb (c_id x) (c_id c) then c :: rest else x :: put c rest
  end.

(** [store.delete(id)] *)
Definition remove (id : string) (records : list Conversation) : list Conversation :=
  filter (fun x => negb (String.eqb (c_id x) id)) records.

(** One IndexedDB request: [onerror] rejects with [request.error] (a
    [DOMException], which is an [Error]); [onsuccess] applies the change. *)
Definition request (opened : bool)
           (change : list Conversation -> list Conversation) : M unit :=
  fun w =>
    let n := w_idbRequests w in
    match w_idbFault w n with
    | Some message =>
        (Rejected (ErrorObj message),
         mkWorld (w_app w) (w_dbOpen w) (w_store w) (w_localStorage w) (w_log w)
                 (w_clock w) (w_clockReads w) (w_uuid w) (w_uuidReads w)
                 (w_idbFault w) (S n) (w_net w) (w_fetches w))
    | None =>
        (Resolved tt,
         mkWorld (w_app w) (w_dbOpen w || opened) (change (w_store w))
                 (w_localStorage w) (w_log w)
                 (w_clock w) (w_clockReads w) (w_uuid w) (w_uuidReads w)
                 (w_idbFault w) (S n) (w_net w) (w_fetches w))
    end.

(** [indexedDB.open]: on success [this.db] is set. *)
Definition init : M unit := request true (fun records => records).

(** [if (!this.db) await this.init();] *)
Definition ensure_open : M unit :=
  fun w => if w_dbOpen w then ret tt w else init w.

Definition saveConversation (conversation : Conversation) : M unit :=
  emit (DbSave conversation) ;;;
  ensure_open ;;;
  request false (put conversation).

Definition deleteConversation (id : string) : M unit :=
  emit (DbDelete id) ;;;
  ensure_open ;;;
  request false (remove id).

End db.

(** ** [App]: the handlers

    A handler is a closure of one render: it reads the state [s] of that
    render, and its [set...] calls update the state the next render will
    see. *)
Module App.

Definition setConversations (f : list Conversation -> list Conversation) : M unit :=
  fun w =>
    (Resolved tt,
     with_app (fun s => mkAppState (f (conversations s)) (currentConversationId s)
                                   (isConfigModalOpen s) (apiConfig s)) w).

Definition setCurrentConversationId (id : option string) : M unit :=
  fun w =>
    (Resolved tt,
     with_app (fun s => mkAppState (conversations s) id
                                   (isConfigModalOpen s) (apiConfig s)) w).

Definition setIsConfigModalOpen (open : bool) : M unit :=
  fun w =>
    (Resolved tt,
     with_app (fun s => mkAppState (conversations s) (currentConversationId s)
                                   open (apiConfig s)) w).

Definition setApiConfig (config : Settings) : M unit :=
  fun w =>
    (Resolved tt,
     with_app (fun s => mkAppState (conversations s) (currentConversationId s)
                                   (isConfigModalOpen s) (Some config)) w).

(** [localStorage.setItem(key, JSON.stringify(config))] *)
Definition localStorage_setItem (key : string) (config : Settings) : M unit :=
  fun w =>
    (Resolved tt,
     mkWorld (w_app w) (w_dbOpen w) (w_store w) (Some config)
             (w_log w ++ [LocalStorageSet key config])
             (w_clock w) (w_clockReads w) (w_uuid w) (w_uuidReads w)
             (w_idbFault w) (w_idbRequests w) (w_net w) (w_fetches w)).

Definition saveConfig (config : Settings) : M unit :=
  setApiConfig config ;;;
  localStorage_setItem "apiConfig" config.

(** [c.id === currentConversationId] *)
Definition is_current (s : AppState) (id : string) : bool :=
  match currentConversationId s with
  | Some current => String.eqb id current
  | None => false
  end.

Definition getCurrentConversation (s : AppState) : option Conversation :=
  find (fun c => is_current s (c_id c)) (conversations s).

Definition handleNewConversation (s : AppState) : M unit :=
  match apiConfig s with
  | None => setIsConfigModalOpen true
  | Some apiConfig =>
      id <- randomUUID ;;
      createdAt <- Date_now ;;
      updatedAt <- Date_now ;;
      let newConversation :=
        mkConversation id "New Conversation" [] createdAt updatedAt
          (mkSettings (hostname apiConfig) (apiKey apiConfig) (model apiConfig)) in
      detached (db.saveConversation newConversation) ;;;
      setConversations (fun prev => newConversation :: prev) ;;;
      setCurrentConversationId (Some (c_id newConversation))
  end.

(** [`Error: ${error instanceof Error ? error.message : 'Failed to get response'}`] *)
Definition error_content (error : thrown) : string :=
  "Error: " ++ match error with
               | ErrorObj message => message
               | NonError => "Failed to get response"
               end.

Definition LF : string := String (ascii_of_nat 10) EmptyString.

Definition handleSendMessage (s : AppState) (content : string)
           (attachments : option (list File)) : M unit :=
  match getCurrentConversation s, apiConfig s with
  | Some conversation, Some apiConfig =>
      attachmentData <-
        match attachments with
        | Some files =>
            data <- settle
                      (all (fun file =>
                              option_map (mkAttachment (f_name file) (f_type file))
                                         (apiService.readFileAsBase64 file))
                           files) ;;
            ret (Some data)
        | None => ret None
        end ;;
      timestamp <- Date_now ;;
      let userMessage := mkMessage user (JString content) timestamp attachmentData in
      let updatedMessages := (c_messages conversation ++ [userMessage])%list in
      updatedAt <- Date_now ;;
      let updatedConversation :=
        mkConversation
          (c_id conversation)
          (if Nat.eqb (length (c_messages conversation)) 0
           then slice0 50 content
                  ++ (if Nat.ltb 50 (String.length content) then "..." else "")
           else c_title conversation)
          updatedMessages
          (c_createdAt conversation)
          updatedAt
          (c_apiConfig conversation) in
      db.saveConversation updatedConversation ;;;
      setConversations
        (map (fun c => if String.eqb (c_id c) (c_id conversation)
                       then updatedConversation else c)) ;;;
      try_catch
        (messageContent <-
           match attachments with
           | Some files =>
               if Nat.ltb 0 (length files) then
                 textAttachments <-
                   settle
                     (all (fun f =>
                             option_map
                               (fun text => LF ++ LF ++ "File: " ++ f_name f ++ LF ++ text)
                               (apiService.readFileAsText f))
                          (filter (fun f => startsWith (f_type f) "text/") files)) ;;
                 ret (content ++ join textAttachments)
               else ret content
           | None => ret content
           end ;;
         response <-
           apiService.sendChatMessage apiConfig
             (mkChatRequest
                (model apiConfig)
                (slice_last 10
                   (map (fun m => mkChatMessage (m_role m) (m_content m))
                        updatedMessages))
                None) ;;
         timestamp' <- Date_now ;;
         let assistantMessage := mkMessage assistant response timestamp' None in
         updatedAt' <- Date_now ;;
         let updatedConversation' :=
           mkConversation
             (c_id updatedConversation) (c_title updatedConversation)
             (updatedMessages ++ [assistantMessage])
             (c_createdAt updatedConversation) updatedAt'
             (c_apiConfig updatedConversation) in
         db.saveConversation updatedConversation' ;;;
         setConversations
           (map (fun c => if String.eqb (c_id c) (c_id conversation)
                          then updatedConversation' else c)))
        (fun error =>
           timestamp' <- Date_now ;;
           let errorMessage :=
             mkMessage assistant (JString (error_content error)) timestamp' None in
           updatedAt' <- Date_now ;;
           (* the spread reads id, title, createdAt and apiConfig, which the
              reassignment inside [try] leaves as they were *)
           let updatedConversation' :=
             mkConversation
               (c_id updatedConversation) (c_title updatedConversation)
               (updatedMessages ++ [errorMessage])
               (c_createdAt updatedConversation) updatedAt'
               (c_apiConfig updatedConversation) in
           db.saveConversation updatedConversation' ;;;
           setConversations
             (map (fun c => if String.eqb (c_id c) (c_id conversation)
                            then updatedConversation' else c)))
  | _, _ => ret tt
  end.

Definition handleDeleteConversation (s : AppState) (id : string) : M unit :=
  db.deleteConversation id ;;;
  setConversations (filter (fun c => negb (String.eqb (c_id c) id))) ;;;
  match currentConversationId s with
  | Some current =>
      if String.eqb current id then setCurrentConversationId None else ret tt
  | None => ret tt
  end.

(** [!currentConversationId]: [undefined] and the empty string are falsy. *)
Definition no_selection (s : AppState) : bool :=
  match currentConversationId s with
  | Some id => String.eqb id ""
  | None => true
  end.

Definition handleSaveConfig (s : AppState) (config : Settings) : M unit :=
  saveConfig config ;;;
  if no_selection s then handleNewConversation s else ret tt.

(** A user action: the handler of the latest render runs in the world. *)
Definition dispatch {A} (handler : AppState -> M A) : M A :=
  fun w => handler (w_app w) w.

End App.

(** ** Reading a run *)

(** The events a computation adds to the log. *)
Definition trace {A} (m : M A) (w : World) : list Event :=
  skipn (length (w_log w)) (w_log (snd (m w))).

Definition outcome {A} (m : M A) (w : World) : Outcome A := fst (m w).

Definition after {A} (m : M A) (w : World) : World := snd (m w).

(** The chat requests put on the wire, oldest first. *)
Fixpoint chat_requests (events : list Event) : list (string * ChatRequest) :=
  match events with
  | [] => []
  | NetFetch url _ _ (Some body) :: rest => (url, body) :: chat_requests rest
  | _ :: rest => chat_requests rest
  end.

(** The conversations handed to [db.saveConversation], oldest first. *)
Fixpoint saves (events : list Event) : list Conversation :=
  match events with
  | [] => []
  | DbSave c :: rest => c :: saves rest
  | _ :: rest => saves rest
  end.

(** * Vocabulary of the properties *)

(** ** Hostname normalisation *)

Fixpoint blank (s : string) : bool :=
  match s with
  | EmptyString => true
  | String c rest => is_space c && blank rest
  end.

Definition first_char (s : string) : option ascii :=
  match s with
  | EmptyString => None
  | String c _ => Some c
  end.

Fixpoint last_char (s : string) : option ascii :=
  match s with
  | EmptyString => None
  | String c EmptyString => Some c
  | String _ rest => last_char rest
  end.

Definition space_at (c : option ascii) : bool :=
  match c with
  | Some c => is_space c
  | None => false
  end.

(** The three steps: [t] is [h] without its surrounding white space; [u] is
    [t], prefixed unless [t] starts with [http://] or [https://]; [r] is [u]
    without one final slash. *)
Definition Trimmed (h t : string) : Prop :=
  (exists l r, blank l = true /\ blank r = true /\ h = l ++ t ++ r) /\
  space_at (first_char t) = false /\ space_at (last_char t) = false.

Definition starts_with_http (t : string) : Prop :=
  (exists rest, t = "http://" ++ rest) \/ (exists rest, t = "https://" ++ rest).

Definition Schemed (t u : string) : Prop :=
  (starts_with_http t /\ u = t) \/ (~ starts_with_http t /\ u = "https://" ++ t).

(** A value that names a scheme of its own, whichever it is. *)
Definition explicit_scheme (t : string) : Prop :=
  exists scheme rest, scheme <> "" /\ t = scheme ++ "://" ++ rest.

Definition One_slash_stripped (u r : string) : Prop :=
  u = r ++ "/" \/ (last_char u <> Some "/"%char /\ r = u).

(** ** Response dialects *)

(** [data.choices[0].message.content] and [data.message.content]; a step
    that is missing gives [undefined]. *)
Definition openai_content (data : JSON) : value :=
  get_opt (get_opt (first (get_opt (Some data) "choices")) "message") "content".

Definition flat_content (data : JSON) : value :=
  get_opt (get_opt (Some data) "message") "content".

(** The content a body is accepted with: the OpenAI-style one when it is
    truthy, else the flat one when it is truthy. *)
Definition accepted_content (data : JSON) : option JSON :=
  match when_truthy (openai_content data) with
  | Some content => Some content
  | None => when_truthy (flat_content data)
  end.

(** [model.key] on an element that is not [null]. *)
Definition field (model : JSON) (key : string) : value := get_opt (Some model) key.

(** [a ?? b] *)
Definition nullish_else (a b : value) : value :=
  match a with
  | None | Some JNull => b
  | _ => a
  end.

(** The two element mappings as the spec writes them, with [??]. *)
Definition data_model_written (m : JSON) : Model :=
  mkModel (field m "id") (nullish_else (field m "name") (field m "id")).

Definition models_model_written (m : JSON) : Model :=
  mkModel (nullish_else (field m "model") (field m "name")) (field m "name").

(** The two element mappings with [||]. *)
Definition data_model (m : JSON) : Model :=
  mkModel (field m "id") (or_else (field m "name") (field m "id")).

Definition models_model (m : JSON) : Model :=
  mkModel (or_else (field m "model") (field m "name")) (field m "name").

(** ** Sample worlds *)

(** A world that starts with the state [app], an unopened empty store, an
    empty log, a clock that ticks once per reading, and the given answers
    of IndexedDB and of the network. *)
Definition world_of (app : AppState) (idb : nat -> option string)
           (net : nat -> string + Response) : World :=
  mkWorld app false [] None [] (fun n => Z.of_nat n) 0
          (fun n => "uuid-" ++ String (ascii_of_nat (48 + n)) EmptyString) 0
          idb 0 net 0.

Definition no_app : AppState := mkAppState [] None false None.

Definition healthy : nat -> option string := fun _ => None.

Definition answering (response : Response) : nat -> string + Response :=
  fun _ => inr response.

Definition local_settings : Settings := mkSettings "localhost:11434" None "m2".

Definition one_message (text : string) : ChatRequest :=
  mkChatRequest "m2" [mkChatMessage user (JString text)] None.

(** A 2xx body in the OpenAI shape. *)
Definition openai_body (content : JSON) : JSON :=
  JObject [("choices", JArray [JObject [("message", JObject [("content", content)])]])].

Definition ok_response (data : JSON) : Response := mkResponse true "OK" "" (Some data).

(** ** Sends *)

(** A message as it goes on the wire: role and content only. *)
Definition wire (m : Message) : ChatMessage := mkChatMessage (m_role m) (m_content m).

(** The title the spec derives from a first message. *)
Definition derived_title (content : string) : string :=
  if Nat.leb (String.length content) 50 then content
  else slice0 50 content ++ "...".

(** The user sends one message after the other. *)
Fixpoint sends (inputs : list (string * option (list File))) (w : World) : World :=
  match inputs with
  | [] => w
  | (content, attachments) :: rest =>
      sends rest
            (after (App.dispatch (fun s => App.handleSendMessage s content attachments)) w)
  end.

(** What step 5 of the send workflow describes: the text followed by one
    labelled block per text attachment. *)
Definition with_text_blocks (content : string) (files : list File) : string :=
  content ++
  join (map (fun f => App.LF ++ App.LF ++ "File: " ++ f_name f ++ App.LF
                        ++ match f_text f with Some text => text | None => "" end)
            (filter (fun f => startsWith (f_type f) "text/") files)).

(** ** Sample states *)

Definition pinned_settings : Settings := mkSettings "api.example.com" None "m1".

(** A conversation created under [pinned_settings]. *)
Definition fresh_conversation : Conversation :=
  mkConversation "c1" "New Conversation" [] 0 0 pinned_settings.

(** [fresh_conversation] is selected; the global settings have since been
    changed to [local_settings]. *)
Definition chatting : AppState :=
  mkAppState [fresh_conversation] (Some "c1") false (Some local_settings).

Definition notes_txt : File := mkFile "a.txt" "text/plain" (Some "T") (Some "VA==").

Definition hello : Response := ok_response (openai_body (JString "hello")).

(** IndexedDB accepts every request but the one numbered [k]. *)
Definition failing_at (k : nat) (message : string) : nat -> option string :=
  fun n => if Nat.eqb n k then Some message else None.

(** A conversation with eleven earlier messages. *)
Definition eleven : list Message :=
  map (fun n => mkMessage (if Nat.even n then user else assistant)
                          (JString (String (ascii_of_nat (97 + n)) EmptyString))
                          (Z.of_nat n) None)
      (seq 0 11).

Definition long_conversation : Conversation :=
  mkConversation "c1" "a" eleven 0 10 local_settings.

Definition long_chat : AppState :=
  mkAppState [long_conversation] (Some "c1") false (Some local_settings).

Definition unavailable : Response := mkResponse false "Service Unavailable" "down" None.

(** No conversation is selected; the settings [pinned_settings] were saved
    in an earlier session. *)
Definition configured : AppState := mkAppState [] None false (Some pinned_settings).

Definition sixty_a : string :=
  string_of_list_ascii (repeat "a"%char 60).

(** * The rest of the code

    The two reads of [db], the start of [App], and the handlers of the
    components around it. *)

(** ** [db]: the reads *)
Module DatabaseService.

(** [store.get(id)]: a read-only request; [request.result] is the record
    with that key, or [undefined]. *)
Definition getConversation (id : string) : M (option Conversation) :=
  db.ensure_open ;;;
  db.request false (fun records => records) ;;;
  fun w => (Resolved (find (fun x => String.eqb (c_id x) id) (w_store w)), w).

(** The order of the index on [updatedAt] walked with direction ['prev']:
    larger [updatedAt] first and, among equal ones, the larger key first. *)
Definition walked_before (a b : Conversation) : bool :=
  Z.ltb (c_updatedAt b) (c_updatedAt a)
  || (Z.eqb (c_updatedAt a) (c_updatedAt b) && String.leb (c_id b) (c_id a)).

Fixpoint enter (c : Conversation) (walk : list Conversation) : list Conversation :=
  match walk with
  | [] => [c]
  | x :: rest => if walked_before c x then c :: walk else x :: enter c rest
  end.

Definition index_prev (records : list Conversation) : list Conversation :=
  fold_right enter [] records.

(** The [onsuccess] handler of the cursor request: a cursor pushes its value
    and continues; no cursor resolves with what was pushed. *)
Fixpoint walk (cursor conversations : list Conversation) : list Conversation :=
  match cursor with
  | value :: next => walk next (conversations ++ [value])%list
  | [] => conversations
  end.

Definition getAllConversations : M (list Conversation) :=
  db.ensure_open ;;;
  db.request false (fun records => records) ;;;
  fun w => (Resolved (walk (index_prev (w_store w)) []), w).

End DatabaseService.

(** ** [App]: what runs when the component mounts *)
Module Mount.

Definition loadConversations : M unit :=
  allConversations <- DatabaseService.getAllConversations ;;
  App.setConversations (fun _ => allConversations).

(** [localStorage.getItem('apiConfig')] followed by [JSON.parse]: the slot
    holds what [saveConfig] wrote. *)
Definition loadSavedConfig : M unit :=
  fun w =>
    match w_localStorage w with
    | Some saved => App.setApiConfig saved w
    | None => ret tt w
    end.

(** [useEffect(() => { loadConversations(); loadSavedConfig(); }, [])] *)
Definition useEffect : M unit :=
  detached loadConversations ;;;
  loadSavedConfig.

End Mount.

(** ** The state and the calls the handlers above do not involve *)

Record EmbeddingRequest : Type := mkEmbeddingRequest {
  er_model : string;
  er_input : string
}.

(** The remaining state of [App]. *)
Record EmbeddingsState : Type := mkEmbeddingsState {
  embeddings : JSON;
  embeddingsFileName : string;
  isEmbeddingsModalOpen : bool
}.

(** The state of [ChatInterface]. *)
Record ChatInterfaceState : Type := mkChatInterfaceState {
  ci_input : string;
  ci_attachedFiles : list File;
  ci_loading : bool;
  ci_extractingEmbeddings : bool
}.

(** The state of [APIConfigModal].  [selectedModel] is declared a string;
    it can hold whatever [id] the endpoint listed. *)
Record APIConfigModalState : Type := mkAPIConfigModalState {
  dlg_hostname : string;
  dlg_apiKey : string;
  dlg_selectedModel : value;
  dlg_models : list Model;
  dlg_loading : bool;
  dlg_error : string;
  dlg_testSuccess : bool
}.

(** What reaches the user or the network besides the events above. *)
Inductive Notice : Type :=
| Alert (text : string)
| ConsoleError (label : string) (error : thrown)
| EmbeddingFetch (url method : string) (headers : list (string * string))
                 (body : EmbeddingRequest).

Record Shell : Type := mkShell {
  sh_embeddings : EmbeddingsState;
  sh_chat : ChatInterfaceState;
  sh_dialog : APIConfigModalState;
  sh_notices : list Notice
}.

(** A computation over the shell and the world. *)
Definition U (A : Type) : Type := Shell -> World -> Outcome A * Shell * World.

Definition retU {A} (a : A) : U A := fun sh w => (Resolved a, sh, w).

Definition throwU {A} (e : thrown) : U A := fun sh w => (Rejected e, sh, w).

Definition bindU {A B} (m : U A) (k : A -> U B) : U B :=
  fun sh w =>
    match m sh w with
    | (Resolved a, sh', w') => k a sh' w'
    | (Rejected e, sh', w') => (Rejected e, sh', w')
    end.

Definition liftU {A} (m : M A) : U A :=
  fun sh w => match m w with (o, w') => (o, sh, w') end.

(** [try { m } catch (error) { h error }] *)
Definition try_catchU {A} (m : U A) (h : thrown -> U A) : U A :=
  fun sh w =>
    match m sh w with
    | (Resolved a, sh', w') => (Resolved a, sh', w')
    | (Rejected e, sh', w') => h e sh' w'
    end.

(** [try { m } finally { f }] for an [f] that does not throw. *)
Definition finallyU {A} (m : U A) (f : Shell -> Shell) : U A :=
  fun sh w => match m sh w with (o, sh', w') => (o, f sh', w') end.

Definition update (f : Shell -> Shell) : U unit :=
  fun sh w => (Resolved tt, f sh, w).

Notation "x <~ m ;; k" := (bindU m (fun x => k))
  (at level 61, m at next level, right associativity).
Notation "m ~~ k" := (bindU m (fun _ => k))
  (at level 61, right associativity).

Definition notify (n : Notice) (sh : Shell) : Shell :=
  mkShell (sh_embeddings sh) (sh_chat sh) (sh_dialog sh) (sh_notices sh ++ [n]).

Definition with_chat (f : ChatInterfaceState -> ChatInterfaceState) (sh : Shell) : Shell :=
  mkShell (sh_embeddings sh) (f (sh_chat sh)) (sh_dialog sh) (sh_notices sh).

Definition with_dialog (f : APIConfigModalState -> APIConfigModalState)
           (sh : Shell) : Shell :=
  mkShell (sh_embeddings sh) (sh_chat sh) (f (sh_dialog sh)) (sh_notices sh).

Definition with_embeddings (f : EmbeddingsState -> EmbeddingsState) (sh : Shell) : Shell :=
  mkShell (f (sh_embeddings sh)) (sh_chat sh) (sh_dialog sh) (sh_notices sh).

(** [fetch] with the body of an embedding request. *)
Definition fetch_embedding (url method : string) (headers : list (string * string))
           (body : EmbeddingRequest) : U Response :=
  fun sh w =>
    let sh' := notify (EmbeddingFetch url method headers body) sh in
    let w' :=
      mkWorld (w_app w) (w_dbOpen w) (w_store w) (w_localStorage w) (w_log w)
              (w_clock w) (w_clockReads w) (w_uuid w) (w_uuidReads w)
              (w_idbFault w) (w_idbRequests w) (w_net w) (S (w_fetches w)) in
    match w_net w (w_fetches w) with
    | inl message => (Rejected (ErrorObj message), sh', w')
    | inr response => (Resolved response, sh', w')
    end.

(** ** [apiService]: embeddings and the data URL *)
Module APIService.

Definition getEmbedding (config : Settings) (request : EmbeddingRequest) : U JSON :=
  let baseUrl := apiService.normalizeHostname (hostname config) in
  let url := baseUrl ++ "/v1/embeddings" in
  response <~ fetch_embedding url "POST" (apiService.getHeaders (apiKey config))
                              request ;;
  if negb (r_ok response) then
    let errorText := r_text response in
    throwU (ErrorObj ("Embedding request failed: " ++ r_statusText response
                        ++ " - " ++ errorText))
  else
    data <~ liftU (json response) ;;
    data_data <~ liftU (read (Some data) "data") ;;
    match when_truthy (and_then data_data (get_opt (first data_data) "embedding")) with
    | Some embedding => retU embedding
    | None =>
        embedding <~ liftU (read (Some data) "embedding") ;;
        match when_truthy embedding with
        | Some embedding => retU embedding
        | None => throwU (ErrorObj "Unexpected embedding response format")
        end
    end.

(** [s.split(',')]: the pieces between the commas; always at least one. *)
Fixpoint split_comma (s : string) : list string :=
  match s with
  | EmptyString => [EmptyString]
  | String c rest =>
      if Ascii.eqb c ","
      then EmptyString :: split_comma rest
      else match split_comma rest with
           | piece :: pieces => String c piece :: pieces
           | [] => [String c EmptyString]
           end
  end.

(** [result.split(',')[1]] in the [onload] of [readFileAsBase64]. *)
Definition base64_of (result : string) : option string :=
  nth_error (split_comma result) 1.

End APIService.

(** ** [App]: embeddings *)
Module Embeddings.

Definition setEmbeddings (v : JSON) : U unit :=
  update (with_embeddings (fun s =>
    mkEmbeddingsState v (embeddingsFileName s) (isEmbeddingsModalOpen s))).

Definition setEmbeddingsFileName (name : string) : U unit :=
  update (with_embeddings (fun s =>
    mkEmbeddingsState (embeddings s) name (isEmbeddingsModalOpen s))).

Definition setIsEmbeddingsModalOpen (open : bool) : U unit :=
  update (with_embeddings (fun s =>
    mkEmbeddingsState (embeddings s) (embeddingsFileName s) open)).

Definition alert (text : string) : U unit := update (notify (Alert text)).

Definition handleExtractEmbeddings (s : AppState) (file : File) : U unit :=
  match apiConfig s with
  | None => retU tt
  | Some apiConfig =>
      try_catchU
        (text <~ liftU (settle (apiService.readFileAsText file)) ;;
         embeddingVector <~
           APIService.getEmbedding apiConfig
             (mkEmbeddingRequest (model apiConfig) text) ;;
         setEmbeddings embeddingVector ~~
         setEmbeddingsFileName (f_name file) ~~
         setIsEmbeddingsModalOpen true)
        (fun error =>
           alert ("Failed to extract embeddings: "
                    ++ match error with
                       | ErrorObj message => message
                       | NonError => "Unknown error"
                       end))
  end.

End Embeddings.

(** ** [ChatInterface] *)
Module ChatInterface.

Definition setInput (text : string) : U unit :=
  update (with_chat (fun s =>
    mkChatInterfaceState text (ci_attachedFiles s) (ci_loading s)
                         (ci_extractingEmbeddings s))).

Definition setAttachedFiles (f : list File -> list File) : U unit :=
  update (with_chat (fun s =>
    mkChatInterfaceState (ci_input s) (f (ci_attachedFiles s)) (ci_loading s)
                         (ci_extractingEmbeddings s))).

Definition setLoading (loading : bool) : Shell -> Shell :=
  with_chat (fun s =>
    mkChatInterfaceState (ci_input s) (ci_attachedFiles s) loading
                         (ci_extractingEmbeddings s)).

Definition setExtractingEmbeddings (extracting : bool) : Shell -> Shell :=
  with_chat (fun s =>
    mkChatInterfaceState (ci_input s) (ci_attachedFiles s) (ci_loading s) extracting).

Definition console_error (label : string) (error : thrown) : U unit :=
  update (notify (ConsoleError label error)).

Definition handleSubmit (s : ChatInterfaceState)
           (onSendMessage : string -> option (list File) -> M unit) : U unit :=
  if String.eqb (trim (ci_input s)) "" && Nat.eqb (length (ci_attachedFiles s)) 0
  then retU tt
  else
    update (setLoading true) ~~
    finallyU
      (try_catchU
         (liftU (onSendMessage (ci_input s) (Some (ci_attachedFiles s))) ~~
          setInput "" ~~
          setAttachedFiles (fun _ => []))
         (fun error => console_error "Failed to send message:" error))
      (setLoading false).

(** [Array.from(e.target.files || [])] appended to the attached files. *)
Definition handleFileSelect (target_files : option (list File)) : U unit :=
  let files := match target_files with Some files => files | None => [] end in
  setAttachedFiles (fun prev => (prev ++ files)%list).

(** [xs.filter((_, i) => keep i)], counting from [i]. *)
Fixpoint filter_index {A} (keep : nat -> bool) (i : nat) (xs : list A) : list A :=
  match xs with
  | [] => []
  | x :: rest =>
      if keep i then x :: filter_index keep (S i) rest
      else filter_index keep (S i) rest
  end.

Definition removeFile (index : nat) : U unit :=
  setAttachedFiles (filter_index (fun i => negb (Nat.eqb i index)) 0).

Definition handleExtractEmbeddings (onExtractEmbeddings : File -> U unit)
           (file : File) : U unit :=
  update (setExtractingEmbeddings true) ~~
  finallyU
    (try_catchU
       (onExtractEmbeddings file)
       (fun error => console_error "Failed to extract embeddings:" error))
    (setExtractingEmbeddings false).

End ChatInterface.

(** ** [APIConfigModal] *)
Module APIConfigModal.

Definition setSelectedModel (v : value) : U unit :=
  update (with_dialog (fun s =>
    mkAPIConfigModalState (dlg_hostname s) (dlg_apiKey s) v (dlg_models s)
                          (dlg_loading s) (dlg_error s) (dlg_testSuccess s))).

Definition setModels (models : list Model) : U unit :=
  update (with_dialog (fun s =>
    mkAPIConfigModalState (dlg_hostname s) (dlg_apiKey s) (dlg_selectedModel s) models
                          (dlg_loading s) (dlg_error s) (dlg_testSuccess s))).

Definition setLoading (loading : bool) : Shell -> Shell :=
  with_dialog (fun s =>
    mkAPIConfigModalState (dlg_hostname s) (dlg_apiKey s) (dlg_selectedModel s)
                          (dlg_models s) loading (dlg_error s) (dlg_testSuccess s)).

Definition setError (text : string) : U unit :=
  update (with_dialog (fun s =>
    mkAPIConfigModalState (dlg_hostname s) (dlg_apiKey s) (dlg_selectedModel s)
                          (dlg_models s) (dlg_loading s) text (dlg_testSuccess s))).

Definition setTestSuccess (ok : bool) : U unit :=
  update (with_dialog (fun s =>
    mkAPIConfigModalState (dlg_hostname s) (dlg_apiKey s) (dlg_selectedModel s)
                          (dlg_models s) (dlg_loading s) (dlg_error s) ok)).

(** [apiKey || undefined] *)
Definition key_or_undefined (apiKey : string) : option string :=
  if String.eqb apiKey "" then None else Some apiKey.

(** [fetchedModels[0].id] of a list that is not empty. *)
Definition first_id (models : list Model) : value :=
  match models with
  | m :: _ => md_id m
  | [] => None
  end.

(** The [APIConfig] handed to [fetchModels] has no model; the model field
    of the record, which [fetchModels] does not read, is left empty. *)
Definition handleTestConnection (s : APIConfigModalState) : U unit :=
  update (setLoading true) ~~
  setError "" ~~
  setTestSuccess false ~~
  finallyU
    (try_catchU
       (let config := mkSettings (dlg_hostname s) (key_or_undefined (dlg_apiKey s)) "" in
        fetchedModels <~ liftU (apiService.fetchModels config) ;;
        setModels fetchedModels ~~
        setTestSuccess true ~~
        if Nat.ltb 0 (length fetchedModels) && negb (truthy (dlg_selectedModel s))
        then setSelectedModel (first_id fetchedModels)
        else retU tt)
       (fun err =>
          setError match err with
                   | ErrorObj message => message
                   | NonError => "Failed to connect to API"
                   end ~~
          setModels []))
    (setLoading false).

(** [onSave] receives [{hostname, apiKey: apiKey || undefined, model}]. *)
Definition handleSave (s : APIConfigModalState)
           (onSave : string -> option string -> value -> U unit)
           (onClose : U unit) : U unit :=
  if String.eqb (dlg_hostname s) "" || negb (truthy (dlg_selectedModel s)) then
    setError "Please provide hostname and select a model"
  else
    onSave (dlg_hostname s) (key_or_undefined (dlg_apiKey s)) (dlg_selectedModel s) ~~
    onClose.

End APIConfigModal.

(** ** Reading a run of the shell *)

Definition outcomeU {A} (m : U A) (sh : Shell) (w : World) : Outcome A :=
  fst (fst (m sh w)).

Definition shell_after {A} (m : U A) (sh : Shell) (w : World) : Shell :=
  snd (fst (m sh w)).

Definition world_after {A} (m : U A) (sh : Shell) (w : World) : World :=
  snd (m sh w).

(** ** Vocabulary of the further properties *)

(** The world from here on accepts every IndexedDB request. *)
Definition store_accepts (w : World) : Prop :=
  forall n, w_idbRequests w <= n -> w_idbFault w n = None.

(** The record the store holds under a key. *)
Definition stored (id : string) (w : World) : option Conversation :=
  find (fun x => String.eqb (c_id x) id) (w_store w).

(** Newest first. *)
Definition newest_first (a b : Conversation) : Prop :=
  (c_updatedAt b <= c_updatedAt a)%Z.

(** [after] is [conversation] with messages added at the end and nothing
    else of its identity changed. *)
Definition extends (conversation after : Conversation) : Prop :=
  c_id after = c_id conversation
  /\ c_createdAt after = c_createdAt conversation
  /\ c_apiConfig after = c_apiConfig conversation
  /\ exists added, added <> []
       /\ c_messages after = (c_messages conversation ++ added)%list.

(** The page is loaded again: the state of [App] starts over, the
    connection to the store is gone, the store and the settings slot stay. *)
Definition reloaded (w : World) : World :=
  mkWorld (mkAppState [] None false None) false (w_store w) (w_localStorage w)
          (w_log w) (w_clock w) (w_clockReads w) (w_uuid w) (w_uuidReads w)
          (w_idbFault w) (w_idbRequests w) (w_net w) (w_fetches w).

(** [data.data[0].embedding] and [data.embedding]; a step that is missing
    gives [undefined]. *)
Definition openai_embedding (data : JSON) : value :=
  get_opt (first (get_opt (Some data) "data")) "embedding".

Definition flat_embedding (data : JSON) : value :=
  get_opt (Some data) "embedding".

Definition accepted_embedding (data : JSON) : option JSON :=
  match when_truthy (openai_embedding data) with
  | Some embedding => Some embedding
  | None => when_truthy (flat_embedding data)
  end.

Fixpoint no_comma (s : string) : bool :=
  match s with
  | EmptyString => true
  | String c rest => negb (Ascii.eqb c ",") && no_comma rest
  end.

(** [App]'s [onSendMessage] as [ChatInterface] receives it. *)
Definition app_onSendMessage (content : string) (attachments : option (list File))
  : M unit :=
  App.dispatch (fun s => App.handleSendMessage s content attachments).

Definition idle_chat : ChatInterfaceState := mkChatInterfaceState "" [] false false.

Definition empty_dialog : APIConfigModalState :=
  mkAPIConfigModalState "" "" (Some (JString "")) [] false "" false.

Definition shell_of (chat : ChatInterfaceState) (dialog : APIConfigModalState) : Shell :=
  mkShell (mkEmbeddingsState (JArray []) "" false) chat dialog [].

(** * Properties *)

(** ** Hostname normalisation *)

Lemma trimStart_split s :
  exists l, blank l = true /\ s = l ++ trimStart s /\ space_at (first_char (trimStart s)) = false.
Proof.
  induction s as [|c s IH]; simpl.
  - exists ""; auto.
  - destruct (is_space c) eqn:E.
    + destruct IH as (l & Hl & Hs & Hf).
      exists (String c l); simpl. rewrite E, Hl. repeat split; auto. now f_equal.
    + exists ""; simpl. rewrite E. auto.
Qed.

Lemma trimEnd_split s :
  exists r, blank r = true /\ s = trimEnd s ++ r /\ space_at (last_char (trimEnd s)) = false.
Proof.
  induction s as [|c s IH]; simpl.
  - exists ""; auto.
  - destruct IH as (r & Hr & Hs & Hf).
    destruct (trimEnd s) as [|d k] eqn:E.
    + destruct (is_space c) eqn:Ec.
      * exists (String c r). simpl. rewrite Ec, Hr. repeat split; auto.
        simpl in Hs. now subst.
      * exists r. simpl. rewrite Ec. repeat split; auto. simpl in Hs. now subst.
    + exists r. repeat split; auto.
      simpl. f_equal. exact Hs.
Qed.

Lemma trimEnd_first s :
  space_at (first_char s) = false -> space_at (first_char (trimEnd s)) = false.
Proof.
  destruct s as [|c s]; simpl; auto.
  intros H. destruct (trimEnd s); simpl; auto. rewrite H. simpl. auto.
Qed.

Lemma prefix_split p s : String.prefix p s = true <-> exists rest, s = p ++ rest.
Proof.
  revert s. induction p as [|a p IH]; intros s.
  - split; [intros _; now exists s | now destruct s].
  - destruct s as [|b s]; simpl.
    + split; [discriminate|]. intros [r H]. discriminate.
    + destruct (ascii_dec a b) as [->|N].
      * split.
        -- intros H. apply IH in H. destruct H as [r H]. exists r. now f_equal.
        -- intros [r H]. apply IH. exists r. now inversion H.
      * split; [discriminate|]. intros [r H]. inversion H. congruence.
Qed.

Lemma replace_trailing_slash_app v : replace_trailing_slash (v ++ "/") = v.
Proof.
  induction v as [|c v IH]; simpl; auto.
  destruct (v ++ "/") eqn:E.
  - destruct v; discriminate.
  - now rewrite IH.
Qed.

Lemma replace_trailing_slash_keep u :
  last_char u <> Some "/"%char -> replace_trailing_slash u = u.
Proof.
  induction u as [|c u IH]; simpl; auto.
  destruct u as [|d u].
  - intros H. destruct (Ascii.eqb c "/") eqn:E; auto.
    apply Ascii.eqb_eq in E. subst. congruence.
  - intros H. f_equal. apply IH. exact H.
Qed.

Lemma last_char_slash_dec (o : option ascii) :
  {o = Some "/"%char} + {o <> Some "/"%char}.
Proof.
  destruct o as [c|]; [|right; discriminate].
  destruct (ascii_dec c "/") as [->|N]; [left; reflexivity | right; congruence].
Qed.

Lemma last_char_slash u :
  last_char u = Some "/"%char -> exists v, u = v ++ "/".
Proof.
  induction u as [|c u IH]; simpl; [discriminate|].
  destruct u as [|d u].
  - intros H. inversion H. now exists "".
  - intros H. destruct (IH H) as [v Hv]. exists (String c v). simpl. now f_equal.
Qed.

Lemma trim_Trimmed h : Trimmed h (trim h).
Proof.
  unfold trim.
  destruct (trimStart_split h) as (l & Hl & Hh & Hf).
  destruct (trimEnd_split (trimStart h)) as (r & Hr & Hs & He).
  split; [|split].
  - exists l, r. repeat split; auto. rewrite Hh at 1. now rewrite Hs at 1.
  - now apply trimEnd_first.
  - exact He.
Qed.

Lemma scheme_test t :
  negb (startsWith t "http://") && negb (startsWith t "https://") = false
  <-> starts_with_http t.
Proof.
  unfold starts_with_http, startsWith.
  rewrite <- !prefix_split.
  destruct (String.prefix "http://" t), (String.prefix "https://" t); simpl;
    intuition discriminate.
Qed.

(** C8, as amended: [normalizeHostname] trims the surrounding white space,
    prefixes [https://] exactly when the trimmed value starts with neither
    [http://] nor [https://], and strips exactly one trailing slash;
    ["localhost:11434"] becomes ["https://localhost:11434"] and ["http://x/"]
    becomes ["http://x"]. *)
Theorem normalizeHostname_spec : forall h,
  (exists t u,
      Trimmed h t /\ Schemed t u /\
      One_slash_stripped u (apiService.normalizeHostname h))
  /\ apiService.normalizeHostname "localhost:11434" = "https://localhost:11434"
  /\ apiService.normalizeHostname "http://x/" = "http://x".
Proof.
  intros h. split; [|split; reflexivity].
  unfold apiService.normalizeHostname.
  set (t := trim h).
  set (u := if negb (startsWith t "http://") && negb (startsWith t "https://")
            then "https://" ++ t else t).
  exists t, u. split; [apply trim_Trimmed|]. split.
  - unfold Schemed, u.
    destruct (negb (startsWith t "http://") && negb (startsWith t "https://")) eqn:E.
    + right. split; auto. intros H. apply scheme_test in H. congruence.
    + left. split; auto. now apply scheme_test.
  - unfold One_slash_stripped.
    destruct (last_char_slash_dec (last_char u)) as [H|H].
    + left. destruct (last_char_slash u H) as [v Hv].
      rewrite Hv at 1. rewrite Hv. now rewrite replace_trailing_slash_app.
    + right. split; auto. now apply replace_trailing_slash_keep.
Qed.

(** C8 as stated fails: a value that names the scheme [ftp], and one that
    writes [HTTP] in capitals, are prefixed with [https://] all the same. *)
Lemma normalizeHostname_other_scheme :
  explicit_scheme "ftp://x"
  /\ apiService.normalizeHostname "ftp://x" = "https://ftp://x"
  /\ explicit_scheme "HTTP://x"
  /\ apiService.normalizeHostname "HTTP://x" = "https://HTTP://x".
Proof.
  repeat split.
  - exists "ftp", "x". split; [discriminate | reflexivity].
  - exists "HTTP", "x". split; [discriminate | reflexivity].
Qed.

(** ** Chat completion *)

Lemma when_truthy_guard choices data :
  choices = get_opt (Some data) "choices" ->
  when_truthy (and_then choices (get_opt (get_opt (first choices) "message") "content"))
  = when_truthy (openai_content data).
Proof.
  intros ->. unfold openai_content, and_then.
  destruct (truthy (get_opt (Some data) "choices")) eqn:E; auto.
  destruct (get_opt (Some data) "choices") as [[| | | s | |]|]; simpl in *; try discriminate; auto.
  - destruct b; simpl in *; try discriminate; auto.
  - destruct z; simpl in *; try discriminate; auto.
  - destruct s; simpl in *; try discriminate; auto.
Qed.

(** C6, as amended: a non-2xx response is rejected with the status text and
    the body; a 2xx body that parses to a value other than [null] is
    answered with its accepted content, the OpenAI-style one first, and is
    rejected as an unexpected format when neither content is truthy; the
    call fails exactly when the response is non-2xx or no content of the
    body is truthy. *)
Theorem sendChatMessage_dialects : forall config request w response,
  w_net w (w_fetches w) = inr response ->
  let result := outcome (apiService.sendChatMessage config request) w in
  (r_ok response = false ->
     result = Rejected (ErrorObj ("API request failed: " ++ r_statusText response
                                    ++ " - " ++ r_text response)))
  /\ (r_ok response = true -> forall data, r_json response = Some data ->
      data <> JNull ->
      match accepted_content data with
      | Some content => result = Resolved content
      | None => result = Rejected (ErrorObj "Unexpected response format")
      end)
  /\ ((exists e, result = Rejected e) <->
      r_ok response = false \/
      forall data, r_json response = Some data -> accepted_content data = None).
Proof.
  intros config request w response Hnet result.
  assert (Hrun : result =
    if negb (r_ok response) then
      Rejected (ErrorObj ("API request failed: " ++ r_statusText response
                                    ++ " - " ++ r_text response))
    else match r_json response with
         | None => Rejected (ErrorObj "Unexpected token in JSON")
         | Some JNull => Rejected (ErrorObj "Cannot read properties of null (reading 'choices')")
         | Some data => match accepted_content data with
                        | Some content => Resolved content
                        | None => Rejected (ErrorObj "Unexpected response format")
                        end
         end).
  { unfold result, outcome, apiService.sendChatMessage, bind, fetch.
    rewrite Hnet. destruct (r_ok response); simpl; auto.
    unfold json. destruct (r_json response) as [data|]; simpl; auto.
    destruct data as [| | | |items|fields]; simpl; auto.
    unfold accepted_content, read; simpl.
    rewrite (when_truthy_guard (lookup "choices" fields) (JObject fields) eq_refl).
    destruct (when_truthy (openai_content (JObject fields))); simpl; auto.
    unfold flat_content; simpl.
    destruct (when_truthy (get_opt (lookup "message" fields) "content")); auto. }
  split; [|split].
  - intros H. rewrite Hrun, H. reflexivity.
  - intros H data Hd Hn. rewrite Hrun, H, Hd. simpl.
    destruct data; try congruence; destruct (accepted_content _); reflexivity.
  - rewrite Hrun. destruct (r_ok response); simpl.
    + destruct (r_json response) as [data|].
      * split.
        -- intros [e He]. right. intros d Hd. inversion Hd; subst d.
           destruct data; auto; destruct (accepted_content _); auto; discriminate.
        -- intros [H|H]; [discriminate|]. specialize (H data eq_refl).
           rewrite H. destruct data; eauto.
      * split; eauto. intros _. right. intros d Hd. discriminate.
    + split; eauto.
Qed.

Lemma sendChatMessage_dialects_witness :
  let response := ok_response (openai_body (JString "hello")) in
  let w := world_of no_app healthy (answering response) in
  w_net w (w_fetches w) = inr response
  /\ outcome (apiService.sendChatMessage local_settings (one_message "hi")) w
     = Resolved (JString "hello").
Proof.
  split; [reflexivity|].
  destruct (sendChatMessage_dialects local_settings (one_message "hi")
              (world_of no_app healthy
                 (answering (ok_response (openai_body (JString "hello")))))
              (ok_response (openai_body (JString "hello"))) eq_refl)
    as (_ & H & _).
  refine (H eq_refl (openai_body (JString "hello")) eq_refl _). discriminate.
Defined.

(** C6 as stated fails: a 2xx body in the OpenAI shape whose content is the
    empty text is rejected as an unexpected format instead of being
    answered with that text. *)
Lemma sendChatMessage_empty_content :
  let data := openai_body (JString "") in
  let w := world_of no_app healthy (answering (ok_response data)) in
  r_ok (ok_response data) = true
  /\ openai_content data = Some (JString "")
  /\ outcome (apiService.sendChatMessage local_settings (one_message "hi")) w
     = Rejected (ErrorObj "Unexpected response format").
Proof. repeat split. Qed.

(** ** Model listing *)

Lemma mapM_reads (f : JSON -> M Model) (g : JSON -> Model) items w :
  (forall m w', m <> JNull -> f m w' = (Resolved (g m), w')) ->
  ~ In JNull items ->
  mapM f items w = (Resolved (map g items), w).
Proof.
  intros Hf. induction items as [|m items IH]; simpl; intros Hn; auto.
  unfold bind. rewrite Hf by (intros ->; apply Hn; now left).
  rewrite IH by (intros H; apply Hn; now right). reflexivity.
Qed.

Lemma read_field m key w : m <> JNull -> read (Some m) key w = (Resolved (field m key), w).
Proof. intros H. destruct m; try congruence; reflexivity. Qed.

(** C7, as amended: for a 2xx body that parses to a value other than [null],
    an array under [data] without [null] elements is mapped elementwise to
    [{id, name: name || id}]; failing an array under [data], an array under
    [models] without [null] elements is mapped elementwise to
    [{id: model || name, name}]; with neither array the result is empty. *)
Theorem fetchModels_dialects : forall config w response data,
  w_net w (w_fetches w) = inr response ->
  r_ok response = true ->
  r_json response = Some data ->
  data <> JNull ->
  let result := outcome (apiService.fetchModels config) w in
  (forall items, field data "data" = Some (JArray items) -> ~ In JNull items ->
     result = Resolved (map data_model items))
  /\ (forall items, isArray (field data "data") = false ->
        field data "models" = Some (JArray items) -> ~ In JNull items ->
        result = Resolved (map models_model items))
  /\ (isArray (field data "data") = false -> isArray (field data "models") = false ->
        result = Resolved []).
Proof.
  intros config w response data Hnet Hok Hjson Hdata result.
  unfold result, outcome, apiService.fetchModels, bind, fetch.
  rewrite Hnet, Hok. simpl. unfold json. rewrite Hjson. simpl.
  rewrite (read_field data "data") by assumption.
  split; [|split].
  - intros items Hd Hn. rewrite Hd. simpl.
    rewrite (mapM_reads _ data_model); auto.
    intros m w' Hm. unfold bind. rewrite !read_field by assumption. reflexivity.
  - intros items Hd Hm Hn.
    replace (truthy (field data "data") && isArray (field data "data")) with false
      by (rewrite Hd; now rewrite andb_false_r).
    rewrite (read_field data "models") by assumption. rewrite Hm. simpl.
    rewrite (mapM_reads _ models_model); auto.
    intros m w' Hm'. unfold bind. rewrite !read_field by assumption. reflexivity.
  - intros Hd Hm.
    replace (truthy (field data "data") && isArray (field data "data")) with false
      by (rewrite Hd; now rewrite andb_false_r).
    rewrite (read_field data "models") by assumption.
    replace (truthy (field data "models") && isArray (field data "models")) with false
      by (rewrite Hm; now rewrite andb_false_r).
    reflexivity.
Qed.

Lemma fetchModels_dialects_witness :
  let data := JObject [("models", JArray [JObject [("name", JString "n1");
                                                   ("model", JString "m1")]])] in
  let w := world_of no_app healthy (answering (ok_response data)) in
  w_net w (w_fetches w) = inr (ok_response data)
  /\ r_ok (ok_response data) = true
  /\ r_json (ok_response data) = Some data
  /\ data <> JNull
  /\ outcome (apiService.fetchModels local_settings) w
     = Resolved [mkModel (Some (JString "m1")) (Some (JString "n1"))].
Proof.
  repeat (split; [first [reflexivity | discriminate]|]).
  destruct (fetchModels_dialects local_settings
              (world_of no_app healthy
                 (answering (ok_response
                    (JObject [("models", JArray [JObject [("name", JString "n1");
                                                          ("model", JString "m1")]])]))))
              _ _ eq_refl eq_refl eq_refl ltac:(discriminate))
    as (_ & H & _).
  refine (H _ eq_refl eq_refl _). simpl. intros [H0|[]]. discriminate.
Defined.

(** C7 as stated fails: an element of [data] whose [name] is the empty text
    is listed under its [id], where [name ?? id] keeps the empty name. *)
Lemma fetchModels_empty_name :
  let element := JObject [("id", JString "m1"); ("name", JString "")] in
  let w := world_of no_app healthy
             (answering (ok_response (JObject [("data", JArray [element])]))) in
  outcome (apiService.fetchModels local_settings) w
  = Resolved [mkModel (Some (JString "m1")) (Some (JString "m1"))]
  /\ map data_model_written [element]
     = [mkModel (Some (JString "m1")) (Some (JString ""))].
Proof. split; reflexivity. Qed.

Example fetchModels_examples :
  let listed data :=
    outcome (apiService.fetchModels local_settings)
            (world_of no_app healthy (answering (ok_response data))) in
  listed (JObject [("data", JArray [JObject [("id", JString "m1")]])])
  = Resolved [mkModel (Some (JString "m1")) (Some (JString "m1"))]
  /\ listed (JObject [("models", JArray [JObject [("name", JString "n1");
                                                  ("model", JString "m1")]])])
     = Resolved [mkModel (Some (JString "m1")) (Some (JString "n1"))]
  /\ listed (JObject [("object", JString "list")]) = Resolved [].
Proof. repeat split. Qed.

(** ** Running a handler *)

Lemma skipn_length_app {A} (l x : list A) : skipn (length l) (l ++ x) = x.
Proof. induction l; simpl; auto. Qed.

Lemma skipn_length_self {A} (l : list A) : skipn (length l) l = [].
Proof. induction l; simpl; auto. Qed.

Ltac case_on_match :=
  match goal with
  | |- context [match ?x with _ => _ end] => destruct x eqn:?; simpl; auto
  end.

Lemma sendChatMessage_after config request w :
  after (apiService.sendChatMessage config request) w
  = after (fetch (apiService.normalizeHostname (hostname config) ++ "/v1/chat/completions")
                 "POST" (apiService.getHeaders (apiKey config))
                 (Some (mkChatRequest (cr_model request) (cr_messages request)
                                      (Some false)))) w.
Proof.
  unfold after, apiService.sendChatMessage, bind, fetch, json, read.
  destruct (w_net w (w_fetches w)) as [message|response]; simpl; auto.
  destruct (r_ok response); simpl; auto.
  destruct (r_json response) as [data|]; simpl; auto.
  destruct data; simpl; auto.
  repeat case_on_match.
Qed.

(** The outcome of a chat call depends on the network's next answer only. *)
Lemma sendChatMessage_outcome config request w config' request' w' :
  w_net w' (w_fetches w') = w_net w (w_fetches w) ->
  outcome (apiService.sendChatMessage config' request') w'
  = outcome (apiService.sendChatMessage config request) w.
Proof.
  intros H.
  unfold outcome, apiService.sendChatMessage, bind, fetch, json, read. rewrite H.
  destruct (w_net w (w_fetches w)) as [message|response]; simpl; auto.
  destruct (r_ok response); simpl; auto.
  destruct (r_json response) as [data|]; simpl; auto.
  destruct data; simpl; auto.
  repeat case_on_match.
Qed.


Lemma fetch_after url method headers body w :
  after (fetch url method headers body) w
  = mkWorld (w_app w) (w_dbOpen w) (w_store w) (w_localStorage w)
            (w_log w ++ [NetFetch url method headers body])
            (w_clock w) (w_clockReads w) (w_uuid w) (w_uuidReads w)
            (w_idbFault w) (w_idbRequests w) (w_net w) (S (w_fetches w)).
Proof. unfold after, fetch. now destruct (w_net w (w_fetches w)). Qed.

Lemma sendChatMessage_pair config request w :
  apiService.sendChatMessage config request w
  = (outcome (apiService.sendChatMessage config request) w,
     mkWorld (w_app w) (w_dbOpen w) (w_store w) (w_localStorage w)
             (w_log w ++
              [NetFetch (apiService.normalizeHostname (hostname config)
                           ++ "/v1/chat/completions")
                        "POST" (apiService.getHeaders (apiKey config))
                        (Some (mkChatRequest (cr_model request) (cr_messages request)
                                             (Some false)))])
             (w_clock w) (w_clockReads w) (w_uuid w) (w_uuidReads w)
             (w_idbFault w) (w_idbRequests w) (w_net w) (S (w_fetches w))).
Proof.
  rewrite <- fetch_after, <- sendChatMessage_after.
  unfold outcome, after. now destruct (apiService.sendChatMessage config request w).
Qed.

(** Unfold the plumbing of [M] and reduce the projections of built records. *)
Ltac run :=
  cbv beta iota zeta delta
      [bind ret throw try_catch settle emit Date_now randomUUID detached
       db.saveConversation db.deleteConversation db.ensure_open db.init db.request
       App.setConversations App.setCurrentConversationId App.setIsConfigModalOpen
       App.setApiConfig App.localStorage_setItem App.saveConfig with_app];
  cbn [w_app w_dbOpen w_store w_localStorage w_log w_clock w_clockReads w_uuid
       w_uuidReads w_idbFault w_idbRequests w_net w_fetches
       conversations currentConversationId isConfigModalOpen apiConfig
       c_id c_title c_messages c_createdAt c_updatedAt c_apiConfig
       cr_model cr_messages cr_stream
       fst snd orb].

(** Split on the next answer the world gives. *)
Ltac fork :=
  match goal with
  | |- context [match all ?f ?l with _ => _ end] => destruct (all f l) eqn:?
  | |- context [if w_dbOpen ?w then _ else _] => destruct (w_dbOpen w) eqn:?
  | |- context [match w_idbFault ?w ?n with _ => _ end] =>
      destruct (w_idbFault w n) eqn:?
  | |- context [if Nat.ltb 0 (length ?f) then _ else _] =>
      destruct (Nat.ltb 0 (length f)) eqn:?
  | |- context [apiService.sendChatMessage ?c ?r ?w] =>
      rewrite (sendChatMessage_pair c r w)
  | |- context [match outcome ?m ?w with _ => _ end] => destruct (outcome m w) eqn:?
  end.

Ltac paths := run; repeat (fork; run).

(** After a run: drop the log's old part and read the events. *)
Ltac tidy :=
  run; rewrite <- ?app_assoc, ?skipn_length_app, ?skipn_length_self;
  cbn [app chat_requests saves In].

(** ** The selected conversation across a send *)

Lemma republish_twice id (a b : Conversation) l :
  c_id a = id ->
  map (fun c => if String.eqb (c_id c) id then b else c)
      (map (fun c => if String.eqb (c_id c) id then a else c) l)
  = map (fun c => if String.eqb (c_id c) id then b else c) l.
Proof.
  intros Ha. rewrite map_map. apply map_ext. intros c.
  destruct (String.eqb (c_id c) id) eqn:E; [|now rewrite E].
  now rewrite Ha, String.eqb_refl.
Qed.

Lemma find_republish (p : string -> bool) (x conversation : Conversation) l :
  find (fun c => p (c_id c)) l = Some conversation ->
  c_id x = c_id conversation ->
  find (fun c => p (c_id c))
       (map (fun c => if String.eqb (c_id c) (c_id conversation) then x else c) l)
  = Some x.
Proof.
  intros Hfind Hid.
  assert (Hp : p (c_id conversation) = true)
    by (apply find_some in Hfind; tauto).
  induction l as [|c l IH]; simpl in *; [discriminate|].
  destruct (p (c_id c)) eqn:E.
  - inversion Hfind; subst c. rewrite String.eqb_refl, Hid, Hp. reflexivity.
  - destruct (String.eqb (c_id c) (c_id conversation)) eqn:Eid.
    + apply String.eqb_eq in Eid. congruence.
    + rewrite E. auto.
Qed.

Lemma snoc_not_nil {A} (l : list A) x r : (l ++ x :: r)%list <> [].
Proof. destruct l; discriminate. Qed.

(** The title expression of [handleSendMessage]. *)
Lemma title_expression content :
  slice0 50 content ++ (if Nat.ltb 50 (String.length content) then "..." else "")
  = derived_title content.
Proof.
  unfold derived_title.
  destruct (Nat.leb (String.length content) 50) eqn:E.
  - apply Nat.leb_le in E.
    replace (Nat.ltb 50 (String.length content)) with false
      by (symmetry; apply Nat.ltb_ge; exact E).
    assert (H : forall n s, String.length s <= n -> slice0 n s = s).
    { induction n as [|n IH]; intros [|c s]; simpl; intros H; auto; try lia.
      f_equal. apply IH. lia. }
    rewrite H by exact E.
    clear. induction content; simpl; congruence.
  - apply Nat.leb_gt in E.
    replace (Nat.ltb 50 (String.length content)) with true
      by (symmetry; apply Nat.ltb_lt; exact E).
    reflexivity.
Qed.

(** One send, seen from the selected conversation: it is left as it was, or
    it gains messages and carries the title of the title expression. *)
Lemma send_step w content attachments conversation :
  App.getCurrentConversation (w_app w) = Some conversation ->
  let m := App.dispatch (fun s => App.handleSendMessage s content attachments) in
  let title :=
    if Nat.eqb (length (c_messages conversation)) 0
    then derived_title content else c_title conversation in
  exists conversation',
    App.getCurrentConversation (w_app (after m w)) = Some conversation'
    /\ (conversation' = conversation
        \/ (c_messages conversation' <> [] /\ c_title conversation' = title))
    /\ (outcome m w = Resolved tt -> apiConfig (w_app w) <> None ->
        c_messages conversation' <> [] /\ c_title conversation' = title).
Proof.
  intros Hc m title. unfold m, title, outcome, after, App.dispatch.
  rewrite <- title_expression.
  destruct (App.handleSendMessage (w_app w) content attachments w) as [o w'] eqn:E.
  revert E. unfold App.handleSendMessage. rewrite Hc.
  destruct (apiConfig (w_app w)) as [cfg|].
  2: { run. intros E. inversion E; subst. exists conversation.
       split; [exact Hc|]. split; [now left|]. congruence. }
  unfold App.getCurrentConversation in *.
  destruct attachments as [files|]; paths;
    intros E; inversion E; subst; clear E; tidy.
  all: try (exists conversation; split; [exact Hc|]; split; [now left|];
            intros; discriminate).
  all: rewrite ?republish_twice by reflexivity.
  all: eexists; split;
    [ apply (find_republish (App.is_current (w_app w))); [exact Hc | reflexivity] |].
  all: cbn [c_messages c_title].
  all: split; [right|intros _ _]; (split; [apply snoc_not_nil | reflexivity]).
Qed.

Lemma put_In c records : In c (db.put c records).
Proof.
  induction records as [|x rest IH]; simpl; auto.
  destruct (String.eqb (c_id x) (c_id c)); simpl; auto.
Qed.


(** ** The history sent to the Gateway *)

Lemma slice_last_suffix {A} n (l : list A) :
  exists older, l = (older ++ slice_last n l)%list /\ length older = length l - n.
Proof.
  unfold slice_last. exists (firstn (length l - n) l). split.
  - symmetry. apply firstn_skipn.
  - rewrite length_firstn. lia.
Qed.

(** C3: every chat request a send puts on the wire carries the last ten
    entries of the message log after the new user message is appended (all
    of them when there are at most ten), oldest first, as role and content
    pairs; with eleven earlier messages it carries exactly ten. *)
Theorem gateway_history_last_ten :
  forall s content attachments w conversation url request,
    App.getCurrentConversation s = Some conversation ->
    In (url, request)
       (chat_requests (trace (App.handleSendMessage s content attachments) w)) ->
    let history :=
      (map wire (c_messages conversation) ++ [mkChatMessage user (JString content)])%list in
    cr_messages request = slice_last 10 history
    /\ (exists older,
          history = (older ++ cr_messages request)%list
          /\ length older = length history - 10)
    /\ (length (c_messages conversation) = 11 -> length (cr_messages request) = 10).
Proof.
  intros s content attachments w conversation url request Hc Hin history.
  assert (Hm : cr_messages request = slice_last 10 history).
  { unfold trace in Hin.
    destruct (App.handleSendMessage s content attachments w) as [o w'] eqn:E.
    revert E Hin. unfold App.handleSendMessage. rewrite Hc.
    destruct (apiConfig s) as [cfg|].
    2: { run. intros E. inversion E; subst. rewrite skipn_length_self. simpl. tauto. }
    destruct attachments as [files|]; paths; intros E; inversion E; subst; clear E;
      run; rewrite <- ?app_assoc, ?skipn_length_app, ?skipn_length_self; simpl;
      try tauto; try discriminate;
      (intros [H|[]]; inversion H; subst; clear H; run; unfold history;
       rewrite map_app; reflexivity). }
  split; [exact Hm|]. split.
  - rewrite Hm. apply slice_last_suffix.
  - intros H11. rewrite Hm. unfold slice_last.
    rewrite length_skipn. unfold history. rewrite length_app, length_map, H11. reflexivity.
Qed.

(** ** A failing Gateway *)



Lemma gateway_history_last_ten_witness :
  let w := world_of long_chat healthy (answering hello) in
  let url := "https://localhost:11434/v1/chat/completions" in
  let history :=
    (map wire eleven ++ [mkChatMessage user (JString "twelfth")])%list in
  let request := mkChatRequest "m2" (skipn 2 history) (Some false) in
  App.getCurrentConversation long_chat = Some long_conversation
  /\ In (url, request)
        (chat_requests (trace (App.handleSendMessage long_chat "twelfth" None) w))
  /\ cr_messages request = slice_last 10 history
  /\ (exists older,
        history = (older ++ cr_messages request)%list
        /\ length older = length history - 10)
  /\ (length (c_messages long_conversation) = 11 -> length (cr_messages request) = 10).
Proof.
  split; [reflexivity|].
  split; [vm_compute; left; reflexivity|].
  refine (gateway_history_last_ten long_chat "twelfth" None
            (world_of long_chat healthy (answering hello)) long_conversation
            "https://localhost:11434/v1/chat/completions"
            (mkChatRequest "m2"
               (skipn 2 (map wire eleven ++ [mkChatMessage user (JString "twelfth")]))
               (Some false))
            eq_refl _).
  vm_compute; left; reflexivity.
Defined.



(** ** The title *)

Lemma later_sends_keep_title later : forall w conversation,
  App.getCurrentConversation (w_app w) = Some conversation ->
  c_messages conversation <> [] ->
  exists conversation',
    App.getCurrentConversation (w_app (sends later w)) = Some conversation'
    /\ c_title conversation' = c_title conversation
    /\ c_messages conversation' <> [].
Proof.
  induction later as [|[content attachments] later IH]; intros w conversation Hc Hm.
  - exists conversation. auto.
  - simpl.
    destruct (send_step w content attachments conversation Hc)
      as (next & Hnext & [->|[Hmn Htn]] & _).
    + apply IH; assumption.
    + destruct (IH _ next Hnext Hmn) as (last & Hl & Ht & Hn).
      exists last. split; [exact Hl|]. split; [|exact Hn].
      rewrite Ht, Htn.
      destruct (c_messages conversation); [congruence | reflexivity].
Qed.

Lemma string_length_app a b :
  String.length (a ++ b) = String.length a + String.length b.
Proof. induction a as [|c a IH]; simpl; congruence. Qed.

(** What [slice0] keeps is the first [n] characters: the text is what is
    kept followed by what is dropped. *)
Lemma slice0_cut n : forall s,
  n <= String.length s ->
  exists dropped,
    s = slice0 n s ++ dropped /\ String.length (slice0 n s) = n.
Proof.
  induction n as [|n IH]; intros s H.
  - exists s. destruct s; split; reflexivity.
  - destruct s as [|c s]; simpl in H; [lia|].
    destruct (IH s) as (dropped & Hcut & Hlen); [lia|].
    exists dropped. simpl. split; [f_equal; exact Hcut | f_equal; exact Hlen].
Qed.

(** C9: once a first message has entered a conversation, the title is
    from then on the title derived from that message, whatever is sent
    later: the content itself when it has at most 50 characters; when it
    is longer, the content is what the title keeps, 50 characters long,
    followed by what it drops, and the title is what is kept followed by
    [...]. *)
Theorem title_from_first_message :
  forall w content attachments conversation first_sent later,
    App.getCurrentConversation (w_app w) = Some conversation ->
    c_messages conversation = [] ->
    App.getCurrentConversation (w_app (sends [(content, attachments)] w))
    = Some first_sent ->
    c_messages first_sent <> [] ->
    exists titled,
      App.getCurrentConversation
        (w_app (sends ((content, attachments) :: later) w)) = Some titled
      /\ c_title first_sent = derived_title content
      /\ c_title titled = derived_title content
      /\ (String.length content <= 50 -> c_title titled = content)
      /\ (50 < String.length content -> c_title titled = slice0 50 content ++ "...")
      /\ (50 < String.length content ->
          exists kept dropped,
            content = kept ++ dropped
            /\ String.length kept = 50
            /\ c_title titled = kept ++ "..."
            /\ String.length (c_title titled) = 53).
Proof.
  intros w content attachments conversation first_sent later Hc Hm Hf Hmf.
  cbn [sends] in Hf |- *.
  destruct (send_step w content attachments conversation Hc)
    as (next & Hnext & Hcases & _).
  rewrite Hf in Hnext. inversion Hnext; subst next; clear Hnext.
  destruct Hcases as [->|[_ Htf]]; [congruence|].
  rewrite Hm in Htf. simpl in Htf.
  destruct (later_sends_keep_title later _ first_sent Hf Hmf) as (titled & Ht & Hk & _).
  exists titled. split; [exact Ht|]. split; [exact Htf|].
  rewrite Hk, Htf. split; [reflexivity|].
  unfold derived_title. split; [|split]; intros H.
  - apply Nat.leb_le in H. now rewrite H.
  - apply Nat.leb_gt in H. now rewrite H.
  - destruct (slice0_cut 50 content) as (dropped & Hcut & Hlen); [lia|].
    exists (slice0 50 content), dropped.
    apply Nat.leb_gt in H. rewrite H.
    split; [exact Hcut|]. split; [exact Hlen|]. split; [reflexivity|].
    rewrite string_length_app, Hlen. reflexivity.
Qed.

Lemma title_from_first_message_witness :
  let w := world_of chatting healthy (answering hello) in
  let later := [("How are you?", None); ("Bye", Some [notes_txt])] in
  let fifty_a := string_of_list_ascii (repeat "a"%char 50) in
  let first_sent :=
    mkConversation "c1" (fifty_a ++ "...")
      [mkMessage user (JString sixty_a) 0 None;
       mkMessage assistant (JString "hello") 2 None]
      0 3 pinned_settings in
  App.getCurrentConversation (w_app w) = Some fresh_conversation
  /\ c_messages fresh_conversation = []
  /\ App.getCurrentConversation (w_app (sends [(sixty_a, None)] w))
     = Some first_sent
  /\ c_messages first_sent <> []
  /\ option_map c_title
       (App.getCurrentConversation (w_app (sends ((sixty_a, None) :: later) w)))
     = Some (fifty_a ++ "...")
  /\ exists titled,
      App.getCurrentConversation
        (w_app (sends ((sixty_a, None) :: later) w)) = Some titled
      /\ c_title first_sent = derived_title sixty_a
      /\ c_title titled = derived_title sixty_a
      /\ (String.length sixty_a <= 50 -> c_title titled = sixty_a)
      /\ (50 < String.length sixty_a ->
          c_title titled = slice0 50 sixty_a ++ "...")
      /\ (50 < String.length sixty_a ->
          exists kept dropped,
            sixty_a = kept ++ dropped
            /\ String.length kept = 50
            /\ c_title titled = kept ++ "..."
            /\ String.length (c_title titled) = 53).
Proof.
  split; [reflexivity|].
  split; [reflexivity|].
  split; [vm_compute; reflexivity|].
  split; [discriminate|].
  split; [vm_compute; reflexivity|].
  apply (title_from_first_message (world_of chatting healthy (answering hello))
           sixty_a None fresh_conversation).
  - reflexivity.
  - reflexivity.
  - vm_compute; reflexivity.
  - discriminate.
Defined.

(** A first send that resolves under a saved configuration has entered the
    conversation. *)
Lemma resolved_first_send_enters w content attachments conversation :
  App.getCurrentConversation (w_app w) = Some conversation ->
  apiConfig (w_app w) <> None ->
  outcome (App.dispatch (fun s => App.handleSendMessage s content attachments)) w
  = Resolved tt ->
  exists first_sent,
    App.getCurrentConversation (w_app (sends [(content, attachments)] w))
    = Some first_sent
    /\ c_messages first_sent <> [].
Proof.
  intros Hc Ha Ho.
  destruct (send_step w content attachments conversation Hc)
    as (next & Hnext & _ & Hdone).
  exists next. split; [exact Hnext|]. now apply Hdone.
Qed.

Example title_of_sixty_a :
  let w := world_of chatting healthy (answering hello) in
  option_map c_title
    (App.getCurrentConversation (w_app (sends [(sixty_a, None)] w)))
  = Some (string_of_list_ascii (repeat "a"%char 50) ++ "...").
Proof. vm_compute. reflexivity. Qed.

(** ** What goes on the wire *)

(** C1: a send of ["hi"] with the text attachment [a.txt], whose text is
    ["T"], stores the attachment on the user message and puts the content
    ["hi"] on the wire, not the text followed by the labelled block. *)
Theorem text_attachment_not_inlined :
  let w := world_of chatting healthy (answering hello) in
  let m := App.dispatch (fun s => App.handleSendMessage s "hi" (Some [notes_txt])) in
  map (fun sent => cr_messages (snd sent)) (chat_requests (trace m w))
  = [[mkChatMessage user (JString "hi")]]
  /\ with_text_blocks "hi" [notes_txt]
     = "hi" ++ App.LF ++ App.LF ++ "File: a.txt" ++ App.LF ++ "T"
  /\ map (fun c => map m_attachments (c_messages c)) (saves (trace m w))
     = [[Some [mkAttachment "a.txt" "text/plain" "VA=="]];
        [Some [mkAttachment "a.txt" "text/plain" "VA=="]; None]].
Proof. vm_compute. repeat split. Qed.

(** C2: a conversation is created under the settings [m1] at
    [api.example.com]; the settings are then changed to [m2] at
    [localhost:11434]; the conversation stays pinned to the former, and a
    send into it calls [localhost:11434] with model [m2]. *)
Theorem send_uses_current_settings :
  let w0 := world_of configured healthy (answering hello) in
  let w1 := after (App.dispatch App.handleNewConversation) w0 in
  let w2 := after (App.dispatch (fun s => App.handleSaveConfig s local_settings)) w1 in
  let m := App.dispatch (fun s => App.handleSendMessage s "hi" None) in
  option_map c_apiConfig (App.getCurrentConversation (w_app w2))
  = Some (mkSettings "api.example.com" None "m1")
  /\ apiConfig (w_app w2) = Some (mkSettings "localhost:11434" None "m2")
  /\ map (fun sent => (fst sent, cr_model (snd sent))) (chat_requests (trace m w2))
     = [("https://localhost:11434/v1/chat/completions", "m2")].
Proof. vm_compute. repeat split. Qed.

(** ** Store failures *)

(** The optimistic write of a send and the delete of a conversation are
    awaited outside any [try]: their rejection is the handler's. *)
Lemma optimistic_write_failure_propagates w content conversation message :
  App.getCurrentConversation (w_app w) = Some conversation ->
  apiConfig (w_app w) <> None ->
  w_dbOpen w = true ->
  w_idbFault w (w_idbRequests w) = Some message ->
  let m := App.dispatch (fun s => App.handleSendMessage s content None) in
  outcome m w = Rejected (ErrorObj message)
  /\ w_app (after m w) = w_app w
  /\ chat_requests (trace m w) = [].
Proof.
  intros Hc Ha Hopen Hfault.
  unfold outcome, after, trace, App.dispatch, App.handleSendMessage.
  rewrite Hc. destruct (apiConfig (w_app w)) as [cfg|]; [|congruence].
  run. rewrite Hopen. run. rewrite Hfault. tidy. auto.
Qed.

Lemma delete_failure_propagates w id message :
  w_dbOpen w = true ->
  w_idbFault w (w_idbRequests w) = Some message ->
  let m := App.dispatch (fun s => App.handleDeleteConversation s id) in
  outcome m w = Rejected (ErrorObj message)
  /\ w_app (after m w) = w_app w.
Proof.
  intros Hopen Hfault.
  unfold outcome, after, App.dispatch, App.handleDeleteConversation.
  run. rewrite Hopen. run. rewrite Hfault. run. auto.
Qed.

(** C5: when IndexedDB rejects the write that follows a successful reply
    (request 2, after the open and the first write), the send resolves, the
    reply is replaced by an assistant message carrying the store's error, and
    a third write is made; and when IndexedDB cannot be opened, creating a
    conversation resolves with the conversation in memory and not in the
    store. *)
Theorem store_failure_not_propagated :
  let w := world_of chatting (failing_at 2 "QuotaExceededError") (answering hello) in
  let m := App.dispatch (fun s => App.handleSendMessage s "hi" None) in
  let w0 := world_of configured (failing_at 0 "InvalidStateError") (answering hello) in
  let m0 := App.dispatch App.handleNewConversation in
  outcome m w = Resolved tt
  /\ map (fun c => map m_content (c_messages c)) (conversations (w_app (after m w)))
     = [[JString "hi"; JString "Error: QuotaExceededError"]]
  /\ map (fun c => map m_content (c_messages c)) (saves (trace m w))
     = [[JString "hi"];
        [JString "hi"; JString "hello"];
        [JString "hi"; JString "Error: QuotaExceededError"]]
  /\ outcome m0 w0 = Resolved tt
  /\ map c_id (conversations (w_app (after m0 w0))) = ["uuid-0"]
  /\ w_store (after m0 w0) = [].
Proof. vm_compute. repeat split. Qed.

(** ** Saving the configuration *)

(** With a conversation selected, saving the configuration leaves the
    conversation list and the selection as they were. *)
Lemma save_config_with_selection w config id :
  currentConversationId (w_app w) = Some id ->
  id <> "" ->
  let w' := after (App.dispatch (fun s => App.handleSaveConfig s config)) w in
  conversations (w_app w') = conversations (w_app w)
  /\ currentConversationId (w_app w') = Some id
  /\ apiConfig (w_app w') = Some config
  /\ w_localStorage w' = Some config
  /\ w_store w' = w_store w.
Proof.
  intros Hid Hne.
  unfold after, App.dispatch, App.handleSaveConfig, App.no_selection.
  rewrite Hid.
  destruct (String.eqb id "") eqn:E; [apply String.eqb_eq in E; congruence|].
  run. auto.
Qed.

(** C10: the first save of a configuration, made with no conversation
    selected and no configuration saved before, writes the settings and
    creates, persists and selects nothing: the handler still sees no
    configuration and opens the configuration dialog.  With an earlier
    configuration, the conversation it creates is pinned to that earlier
    configuration. *)
Theorem first_save_config_creates_nothing :
  let w := world_of no_app healthy (answering hello) in
  let m := App.dispatch (fun s => App.handleSaveConfig s local_settings) in
  let w0 := world_of configured healthy (answering hello) in
  apiConfig (w_app (after m w)) = Some local_settings
  /\ w_localStorage (after m w) = Some local_settings
  /\ conversations (w_app (after m w)) = []
  /\ currentConversationId (w_app (after m w)) = None
  /\ saves (trace m w) = []
  /\ w_store (after m w) = []
  /\ isConfigModalOpen (w_app (after m w)) = true
  /\ map c_apiConfig (conversations (w_app (after m w0))) = [pinned_settings]
  /\ apiConfig (w_app (after m w0)) = Some local_settings.
Proof. vm_compute. repeat split. Qed.
From Stdlib Require Import Sorted Permutation.

(** * Further properties *)

(** ** The store *)

Lemma find_put c records :
  find (fun x => String.eqb (c_id x) (c_id c)) (db.put c records) = Some c.
Proof.
  induction records as [|x rest IH]; simpl.
  - now rewrite String.eqb_refl.
  - destruct (String.eqb (c_id x) (c_id c)) eqn:E; simpl.
    + now rewrite String.eqb_refl.
    + now rewrite E.
Qed.

Lemma find_put_other c id records :
  id <> c_id c ->
  find (fun x => String.eqb (c_id x) id) (db.put c records)
  = find (fun x => String.eqb (c_id x) id) records.
Proof.
  intros Hne. induction records as [|x rest IH]; simpl.
  - apply String.eqb_neq in Hne. now rewrite String.eqb_sym, Hne.
  - destruct (String.eqb (c_id x) (c_id c)) eqn:E; simpl.
    + apply String.eqb_eq in E.
      assert (H1 : String.eqb (c_id c) id = false)
        by (apply String.eqb_neq; congruence).
      assert (H2 : String.eqb (c_id x) id = false)
        by (apply String.eqb_neq; congruence).
      now rewrite H1, H2.
    + destruct (String.eqb (c_id x) id); auto.
Qed.

Lemma find_remove id records :
  find (fun x => String.eqb (c_id x) id) (db.remove id records) = None.
Proof.
  unfold db.remove. induction records as [|x rest IH]; simpl; auto.
  destruct (String.eqb (c_id x) id) eqn:E; simpl; auto. now rewrite E.
Qed.

Lemma find_remove_other id id' records :
  id' <> id ->
  find (fun x => String.eqb (c_id x) id') (db.remove id records)
  = find (fun x => String.eqb (c_id x) id') records.
Proof.
  intros Hne. unfold db.remove. induction records as [|x rest IH]; simpl; auto.
  destruct (String.eqb (c_id x) id) eqn:E; simpl.
  - apply String.eqb_eq in E.
    assert (H : String.eqb (c_id x) id' = false)
      by (apply String.eqb_neq; congruence).
    now rewrite H.
  - destruct (String.eqb (c_id x) id'); auto.
Qed.

Ltac accept_requests :=
  match goal with
  | H : store_accepts ?w |- context [w_idbFault ?w ?n] =>
      rewrite (H n) by lia
  end.

(** X1: with a store that accepts its requests, a conversation that was
    saved is read back as it was saved, and the record read under any other
    key is the one that was there before. *)
Theorem save_then_get : forall w c id,
  store_accepts w ->
  outcome (db.saveConversation c ;;; DatabaseService.getConversation (c_id c)) w
  = Resolved (Some c)
  /\ (id <> c_id c ->
      outcome (db.saveConversation c ;;; DatabaseService.getConversation id) w
      = Resolved (stored id w)).
Proof.
  intros w c id Hok. unfold outcome, stored, DatabaseService.getConversation.
  split; [|intros Hne]; run; destruct (w_dbOpen w); run;
    repeat (accept_requests; run).
  all: first [now rewrite find_put | now rewrite find_put_other].
Qed.

Lemma save_then_get_witness :
  let w := world_of chatting healthy (answering hello) in
  store_accepts w
  /\ outcome (db.saveConversation long_conversation ;;;
              DatabaseService.getConversation (c_id long_conversation)) w
     = Resolved (Some long_conversation)
  /\ ("c2" <> c_id long_conversation ->
      outcome (db.saveConversation long_conversation ;;;
               DatabaseService.getConversation "c2") w
      = Resolved (stored "c2" w)).
Proof.
  assert (H : store_accepts (world_of chatting healthy (answering hello)))
    by (intros n _; reflexivity).
  split; [exact H|].
  exact (save_then_get (world_of chatting healthy (answering hello))
                       long_conversation "c2" H).
Defined.

(** X2: a save or a delete that is rejected is rejected with an [Error],
    and the records of the store are as they were. *)
Theorem rejected_write_changes_nothing : forall w c id (write : M unit) e,
  write = db.saveConversation c \/ write = db.deleteConversation id ->
  outcome write w = Rejected e ->
  w_store (after write w) = w_store w
  /\ exists message, e = ErrorObj message.
Proof.
  intros w c id write e [-> | ->]; unfold outcome, after; run;
    destruct (w_dbOpen w); run;
    repeat (match goal with
            | |- context [w_idbFault ?w ?n] => destruct (w_idbFault w n) eqn:?
            end; run);
    intros H; inversion H; subst; eauto.
Qed.

Lemma rejected_write_changes_nothing_witness :
  let w := world_of chatting (failing_at 1 "QuotaExceededError") (answering hello) in
  let write := db.saveConversation long_conversation in
  (write = db.saveConversation long_conversation
   \/ write = db.deleteConversation "c1")
  /\ outcome write w = Rejected (ErrorObj "QuotaExceededError")
  /\ w_store (after write w) = w_store w
  /\ exists message, ErrorObj "QuotaExceededError" = ErrorObj message.
Proof.
  split; [left; reflexivity|]. split; [reflexivity|].
  exact (rejected_write_changes_nothing
           (world_of chatting (failing_at 1 "QuotaExceededError") (answering hello))
           long_conversation "c1" (db.saveConversation long_conversation)
           (ErrorObj "QuotaExceededError") (or_introl eq_refl) eq_refl).
Defined.

Lemma remove_absent id records :
  find (fun x => String.eqb (c_id x) id) records = None ->
  db.remove id records = records.
Proof.
  unfold db.remove. induction records as [|x rest IH]; simpl; auto.
  destruct (String.eqb (c_id x) id) eqn:E; simpl; [discriminate|].
  intros H. f_equal. auto.
Qed.

(** X3: with a store that accepts its requests, a deleted key reads back as
    absent, every other key reads back as before, and deleting a key that
    is absent leaves the records as they were. *)
Theorem delete_then_get : forall w id id',
  store_accepts w ->
  outcome (db.deleteConversation id ;;; DatabaseService.getConversation id) w
  = Resolved None
  /\ (id' <> id ->
      outcome (db.deleteConversation id ;;; DatabaseService.getConversation id') w
      = Resolved (stored id' w))
  /\ (stored id w = None ->
      outcome (db.deleteConversation id) w = Resolved tt
      /\ w_store (after (db.deleteConversation id) w) = w_store w).
Proof.
  intros w id id' Hok.
  unfold outcome, after, stored, DatabaseService.getConversation.
  split; [|split]; [|intros Hne|intros Hnone]; run; destruct (w_dbOpen w); run;
    repeat (accept_requests; run).
  all: first [ now rewrite find_remove
             | now rewrite find_remove_other
             | split; [reflexivity | now apply remove_absent] ].
Qed.

Lemma delete_then_get_witness :
  let older := mkConversation "c0" "old" [] 0 5 local_settings in
  let w := mkWorld chatting false [older; long_conversation] None []
                   (fun n => Z.of_nat n) 0 (fun _ => "uuid") 0 healthy 0
                   (answering hello) 0 in
  store_accepts w
  /\ stored "c1" w = Some long_conversation
  /\ w_store (after (db.deleteConversation "c1") w) = [older]
  /\ (outcome (db.deleteConversation "c1" ;;; DatabaseService.getConversation "c1") w
      = Resolved None
      /\ ("c0" <> "c1" ->
          outcome (db.deleteConversation "c1" ;;; DatabaseService.getConversation "c0") w
          = Resolved (stored "c0" w))
      /\ (stored "c1" w = None ->
          outcome (db.deleteConversation "c1") w = Resolved tt
          /\ w_store (after (db.deleteConversation "c1") w) = w_store w))
  /\ stored "c9" w = None
  /\ outcome (db.deleteConversation "c9") w = Resolved tt
  /\ w_store (after (db.deleteConversation "c9") w) = w_store w.
Proof.
  assert (H : store_accepts
                (mkWorld chatting false
                   [mkConversation "c0" "old" [] 0 5 local_settings; long_conversation]
                   None [] (fun n => Z.of_nat n) 0 (fun _ => "uuid") 0 healthy 0
                   (answering hello) 0))
    by (intros n _; reflexivity).
  split; [exact H|]. split; [reflexivity|]. split; [reflexivity|].
  split; [exact (delete_then_get _ "c1" "c0" H)|].
  split; [reflexivity|].
  destruct (delete_then_get _ "c9" "c0" H) as (_ & _ & Habsent).
  exact (Habsent eq_refl).
Defined.

Lemma keys_put c records :
  map c_id (db.put c records)
  = if existsb (fun x => String.eqb (c_id x) (c_id c)) records
    then map c_id records
    else (map c_id records ++ [c_id c])%list.
Proof.
  induction records as [|x rest IH]; simpl; auto.
  destruct (String.eqb (c_id x) (c_id c)) eqn:E; simpl.
  - apply String.eqb_eq in E. now rewrite E.
  - rewrite IH. now destruct (existsb _ rest).
Qed.

Lemma keys_put_unique c records :
  NoDup (map c_id records) -> NoDup (map c_id (db.put c records)).
Proof.
  intros H. rewrite keys_put.
  destruct (existsb (fun x => String.eqb (c_id x) (c_id c)) records) eqn:E; auto.
  apply NoDup_app; auto.
  - repeat constructor. simpl. tauto.
  - intros k Hk [<-|[]].
    apply in_map_iff in Hk. destruct Hk as (x & Hx & Hin).
    assert (Hex : existsb (fun x => String.eqb (c_id x) (c_id c)) records = true).
    { apply existsb_exists. exists x. split; auto. now apply String.eqb_eq. }
    congruence.
Qed.

Lemma keys_remove_unique id records :
  NoDup (map c_id records) -> NoDup (map c_id (db.remove id records)).
Proof.
  unfold db.remove. induction records as [|x rest IH]; simpl; auto.
  intros H. inversion H; subst.
  destruct (String.eqb (c_id x) id); simpl; auto.
  constructor; auto.
  intros Hin. apply H2. apply in_map_iff in Hin. destruct Hin as (y & Hy & Hin).
  apply filter_In in Hin. apply in_map_iff. exists y. tauto.
Qed.

(** X4: a save and a delete, accepted or not, keep the keys of the store
    distinct; a save adds one record when it is accepted and its key is
    new, and none otherwise. *)
Theorem keys_stay_unique : forall w c id (write : M unit),
  write = db.saveConversation c \/ write = db.deleteConversation id ->
  NoDup (map c_id (w_store w)) ->
  NoDup (map c_id (w_store (after write w)))
  /\ length (w_store (after (db.saveConversation c) w))
     = match outcome (db.saveConversation c) w, stored (c_id c) w with
       | Resolved _, None => S (length (w_store w))
       | _, _ => length (w_store w)
       end.
Proof.
  intros w c id write Hw Hu. split.
  - destruct Hw as [-> | ->]; unfold after; run;
      destruct (w_dbOpen w); run;
      repeat (match goal with
              | |- context [w_idbFault ?w ?n] => destruct (w_idbFault w n) eqn:?
              end; run);
      auto using keys_put_unique, keys_remove_unique.
  - assert (Hlen : length (db.put c (w_store w))
                   = match stored (c_id c) w with
                     | None => S (length (w_store w))
                     | Some _ => length (w_store w)
                     end).
    { unfold stored. clear. induction (w_store w) as [|x rest IH]; simpl; auto.
      destruct (String.eqb (c_id x) (c_id c)); simpl; auto.
      rewrite IH. now destruct (find _ rest). }
    unfold after, outcome; run; destruct (w_dbOpen w); run;
      repeat (match goal with
              | |- context [w_idbFault ?w ?n] => destruct (w_idbFault w n) eqn:?
              end; run);
      rewrite ?Hlen; now destruct (stored (c_id c) w).
Qed.

Lemma keys_stay_unique_witness :
  let w := world_of chatting healthy (answering hello) in
  let write := db.saveConversation long_conversation in
  (write = db.saveConversation long_conversation
   \/ write = db.deleteConversation "c1")
  /\ NoDup (map c_id (w_store w))
  /\ NoDup (map c_id (w_store (after write w)))
  /\ length (w_store (after (db.saveConversation long_conversation) w))
     = match outcome (db.saveConversation long_conversation) w,
             stored (c_id long_conversation) w with
       | Resolved _, None => S (length (w_store w))
       | _, _ => length (w_store w)
       end.
Proof.
  split; [left; reflexivity|]. split; [constructor|].
  exact (keys_stay_unique (world_of chatting healthy (answering hello))
           long_conversation "c1" (db.saveConversation long_conversation)
           (or_introl eq_refl) (NoDup_nil _)).
Defined.

(** ** The listing *)

Lemma walk_appends cursor : forall conversations,
  DatabaseService.walk cursor conversations = (conversations ++ cursor)%list.
Proof.
  induction cursor as [|value next IH]; intros conversations; simpl.
  - now rewrite app_nil_r.
  - rewrite IH, <- app_assoc. reflexivity.
Qed.

Lemma walked_before_newest a b :
  DatabaseService.walked_before a b = true -> newest_first a b.
Proof.
  unfold DatabaseService.walked_before, newest_first. intros H.
  apply orb_true_iff in H. destruct H as [H|H].
  - apply Z.ltb_lt in H. lia.
  - apply andb_true_iff in H. destruct H as [H _]. apply Z.eqb_eq in H. lia.
Qed.

Lemma not_walked_before_newest a b :
  DatabaseService.walked_before a b = false -> newest_first b a.
Proof.
  unfold DatabaseService.walked_before, newest_first. intros H.
  apply orb_false_iff in H. destruct H as [H _].
  apply Z.ltb_ge in H. exact H.
Qed.

Lemma enter_permutation c l : Permutation (DatabaseService.enter c l) (c :: l).
Proof.
  induction l as [|x rest IH]; simpl; auto.
  destruct (DatabaseService.walked_before c x); auto.
  rewrite IH. apply perm_swap.
Qed.

Lemma index_prev_permutation records :
  Permutation (DatabaseService.index_prev records) records.
Proof.
  induction records as [|c rest IH]; simpl; auto.
  rewrite enter_permutation. now constructor.
Qed.

Lemma enter_sorted c l :
  StronglySorted newest_first l ->
  StronglySorted newest_first (DatabaseService.enter c l).
Proof.
  induction l as [|x rest IH]; simpl; intros H.
  - repeat constructor.
  - inversion H as [|? ? Hrest Hall]; subst.
    destruct (DatabaseService.walked_before c x) eqn:E.
    + constructor; auto. constructor.
      * now apply walked_before_newest.
      * apply walked_before_newest in E.
        eapply Forall_impl; [|exact Hall]. unfold newest_first in *. intros; lia.
    + constructor; auto.
      apply not_walked_before_newest in E.
      assert (Hp := enter_permutation c rest).
      apply Forall_forall. intros y Hy.
      apply (Permutation_in _ Hp) in Hy. destruct Hy as [<-|Hy]; auto.
      rewrite Forall_forall in Hall. auto.
Qed.

Lemma index_prev_sorted records :
  StronglySorted newest_first (DatabaseService.index_prev records).
Proof.
  induction records as [|c rest IH]; simpl; [constructor|].
  now apply enter_sorted.
Qed.

Lemma getAllConversations_result w listing :
  outcome DatabaseService.getAllConversations w = Resolved listing ->
  listing = DatabaseService.index_prev (w_store w).
Proof.
  unfold outcome, DatabaseService.getAllConversations. run.
  destruct (w_dbOpen w); run;
    repeat (match goal with
            | |- context [w_idbFault ?w ?n] => destruct (w_idbFault w n) eqn:?
            end; run);
    try discriminate; intros H; inversion H; now rewrite walk_appends.
Qed.

(** X5: a listing that resolves holds exactly the records of the store, each
    as often as the store holds it, ordered by [updatedAt], newest first. *)
Theorem listing_newest_first : forall w listing,
  outcome DatabaseService.getAllConversations w = Resolved listing ->
  Permutation listing (w_store w)
  /\ StronglySorted newest_first listing
  /\ w_store (after DatabaseService.getAllConversations w) = w_store w.
Proof.
  intros w listing H.
  rewrite (getAllConversations_result w listing H).
  split; [apply index_prev_permutation|]. split; [apply index_prev_sorted|].
  unfold after, DatabaseService.getAllConversations. run.
  destruct (w_dbOpen w); run;
    repeat (match goal with
            | |- context [w_idbFault ?w ?n] => destruct (w_idbFault w n) eqn:?
            end; run); reflexivity.
Qed.

Lemma In_put_inv x c records :
  In x (db.put c records) -> x = c \/ In x records.
Proof.
  induction records as [|y rest IH]; simpl.
  - intros [<-|[]]. now left.
  - destruct (String.eqb (c_id y) (c_id c)); simpl.
    + intros [<-|H]; auto.
    + intros [<-|H]; auto. destruct (IH H); auto.
Qed.

(** X6: with a store that accepts its requests, a conversation saved with an
    [updatedAt] later than that of every record in the store comes first in
    the next listing. *)
Theorem newest_save_listed_first : forall w c,
  store_accepts w ->
  (forall x, In x (w_store w) -> (c_updatedAt x < c_updatedAt c)%Z) ->
  exists rest,
    outcome (db.saveConversation c ;;; DatabaseService.getAllConversations) w
    = Resolved (c :: rest).
Proof.
  intros w c Hok Hnew.
  assert (Hrun : outcome (db.saveConversation c ;;; DatabaseService.getAllConversations) w
                 = Resolved (DatabaseService.index_prev (db.put c (w_store w)))).
  { unfold outcome, DatabaseService.getAllConversations. run.
    destruct (w_dbOpen w); run; repeat (accept_requests; run);
      now rewrite walk_appends. }
  rewrite Hrun.
  assert (Hp := index_prev_permutation (db.put c (w_store w))).
  assert (Hs := index_prev_sorted (db.put c (w_store w))).
  assert (Hc : In c (DatabaseService.index_prev (db.put c (w_store w)))).
  { apply (Permutation_in _ (Permutation_sym Hp)). apply put_In. }
  destruct (DatabaseService.index_prev (db.put c (w_store w))) as [|h rest];
    [destruct Hc|].
  exists rest. f_equal. f_equal.
  assert (Hh : In h (db.put c (w_store w)))
    by (apply (Permutation_in _ Hp); now left).
  destruct (In_put_inv _ _ _ Hh) as [->|Hold]; auto.
  destruct Hc as [->|Hc]; auto.
  inversion Hs as [|? ? _ Hall]; subst.
  rewrite Forall_forall in Hall. specialize (Hall c Hc). specialize (Hnew h Hold).
  unfold newest_first in Hall. lia.
Qed.

(** X7: with a store that accepts its requests, the connection is open
    after the first operation, and every later operation makes one request
    and leaves it open. *)
Theorem store_opened_once : forall w c c',
  store_accepts w ->
  let w1 := after (db.saveConversation c) w in
  w_dbOpen w1 = true
  /\ w_idbRequests w1 = (if w_dbOpen w then 1 else 2) + w_idbRequests w
  /\ w_idbRequests (after (db.saveConversation c') w1) = S (w_idbRequests w1)
  /\ w_dbOpen (after (db.saveConversation c') w1) = true.
Proof.
  intros w c c' Hok. unfold after. run.
  destruct (w_dbOpen w); run; repeat (accept_requests; run); auto.
Qed.

Lemma listing_newest_first_witness :
  let older := mkConversation "c0" "old" [] 0 5 local_settings in
  let w := mkWorld chatting false [older; long_conversation] None []
                   (fun n => Z.of_nat n) 0 (fun _ => "uuid") 0 healthy 0
                   (answering hello) 0 in
  outcome DatabaseService.getAllConversations w = Resolved [long_conversation; older]
  /\ Permutation [long_conversation; older] (w_store w)
  /\ StronglySorted newest_first [long_conversation; older]
  /\ w_store (after DatabaseService.getAllConversations w) = w_store w.
Proof.
  split; [reflexivity|].
  apply (listing_newest_first
           (mkWorld chatting false
                    [mkConversation "c0" "old" [] 0 5 local_settings; long_conversation]
                    None [] (fun n => Z.of_nat n) 0 (fun _ => "uuid") 0 healthy 0
                    (answering hello) 0)).
  reflexivity.
Defined.

Lemma newest_save_listed_first_witness :
  let older := mkConversation "c0" "old" [] 0 5 local_settings in
  let w := mkWorld chatting false [older] None []
                   (fun n => Z.of_nat n) 0 (fun _ => "uuid") 0 healthy 0
                   (answering hello) 0 in
  store_accepts w
  /\ (forall x, In x (w_store w) -> (c_updatedAt x < c_updatedAt long_conversation)%Z)
  /\ exists rest,
      outcome (db.saveConversation long_conversation ;;;
               DatabaseService.getAllConversations) w
      = Resolved (long_conversation :: rest).
Proof.
  assert (H1 : store_accepts
                 (mkWorld chatting false
                    [mkConversation "c0" "old" [] 0 5 local_settings] None []
                    (fun n => Z.of_nat n) 0 (fun _ => "uuid") 0 healthy 0
                    (answering hello) 0))
    by (intros n _; reflexivity).
  assert (H2 : forall x,
             In x [mkConversation "c0" "old" [] 0 5 local_settings] ->
             (c_updatedAt x < c_updatedAt long_conversation)%Z)
    by (intros x [<-|[]]; reflexivity).
  split; [exact H1|]. split; [exact H2|].
  exact (newest_save_listed_first _ long_conversation H1 H2).
Defined.

Lemma store_opened_once_witness :
  let w := world_of chatting healthy (answering hello) in
  let w1 := after (db.saveConversation fresh_conversation) w in
  store_accepts w
  /\ w_dbOpen w1 = true
  /\ w_idbRequests w1 = (if w_dbOpen w then 1 else 2) + w_idbRequests w
  /\ w_idbRequests (after (db.saveConversation long_conversation) w1)
     = S (w_idbRequests w1)
  /\ w_dbOpen (after (db.saveConversation long_conversation) w1) = true.
Proof.
  assert (H : store_accepts (world_of chatting healthy (answering hello)))
    by (intros n _; reflexivity).
  split; [exact H|].
  exact (store_opened_once (world_of chatting healthy (answering hello))
           fresh_conversation long_conversation H).
Defined.

(** ** The Gateway *)

(** X8: the request headers always carry the JSON content type, and carry
    an [Authorization] header exactly when a key that is not empty is
    configured; its value is the key as it is. *)
Theorem getHeaders_spec : forall apiKey v,
  In ("Content-Type", "application/json") (apiService.getHeaders apiKey)
  /\ (In ("Authorization", v) (apiService.getHeaders apiKey)
      <-> apiKey = Some v /\ v <> "")
  /\ length (apiService.getHeaders apiKey) <= 2.
Proof.
  intros apiKey v. unfold apiService.getHeaders.
  destruct apiKey as [key|]; simpl.
  - destruct (String.eqb key "") eqn:E; simpl.
    + apply String.eqb_eq in E. subst key.
      split; [auto|]. split; [|lia].
      split; [intros [H|[]]; discriminate | intros [H Hne]; inversion H; congruence].
    + apply String.eqb_neq in E.
      split; [auto|]. split; [|lia]. split.
      * intros [H|[H|[]]]; [discriminate|]. inversion H; subst. auto.
      * intros [H _]. inversion H; subst. auto.
  - split; [auto|]. split; [|lia].
    split; [intros [H|[]]; discriminate | intros [H _]; discriminate].
Qed.

Lemma mapM_keeps_world {A B} (f : A -> M B) items :
  (forall x w, snd (f x w) = w) ->
  forall w, snd (mapM f items w) = w.
Proof.
  intros Hf. induction items as [|x rest IH]; intros w; simpl; auto.
  unfold bind. specialize (Hf x w). destruct (f x w) as [[y|e] w1]; simpl in *; subst; auto.
  specialize (IH w). destruct (mapM f rest w) as [[ys|e] w2]; simpl in *; subst; auto.
Qed.

Lemma fetchModels_after config w :
  after (apiService.fetchModels config) w
  = after (fetch (apiService.normalizeHostname (hostname config) ++ "/v1/models")
                 "GET" (apiService.getHeaders (apiKey config)) None) w.
Proof.
  rewrite fetch_after.
  unfold after, apiService.fetchModels, bind, fetch, json.
  destruct (w_net w (w_fetches w)) as [message|response]; simpl; auto.
  destruct (r_ok response); simpl; auto.
  destruct (r_json response) as [data|]; simpl; auto.
  destruct data as [| | | | |fields]; simpl; auto.
  destruct (truthy (lookup "data" fields) && isArray (lookup "data" fields)).
  - apply mapM_keeps_world. intros [] ?; reflexivity.
  - destruct (truthy (lookup "models" fields) && isArray (lookup "models" fields)); auto.
    apply mapM_keeps_world. intros [] ?; reflexivity.
Qed.

(** X9: a chat call and a model listing make one request each and change
    nothing else: the chat call posts to the normalised host followed by
    [/v1/chat/completions] with [stream] set to [false] whatever the caller
    asked; the listing gets the normalised host followed by [/v1/models]. *)
Theorem gateway_calls_only_fetch : forall config request w,
  let base := apiService.normalizeHostname (hostname config) in
  let headers := apiService.getHeaders (apiKey config) in
  let sent (w' : World) := skipn (length (w_log w)) (w_log w') in
  let untouched (w' : World) :=
    w_app w' = w_app w /\ w_store w' = w_store w /\ w_dbOpen w' = w_dbOpen w
    /\ w_localStorage w' = w_localStorage w /\ w_fetches w' = S (w_fetches w) in
  sent (after (apiService.sendChatMessage config request) w)
  = [NetFetch (base ++ "/v1/chat/completions") "POST" headers
              (Some (mkChatRequest (cr_model request) (cr_messages request)
                                   (Some false)))]
  /\ untouched (after (apiService.sendChatMessage config request) w)
  /\ sent (after (apiService.fetchModels config) w)
     = [NetFetch (base ++ "/v1/models") "GET" headers None]
  /\ untouched (after (apiService.fetchModels config) w).
Proof.
  intros config request w. cbv zeta.
  rewrite sendChatMessage_after, fetchModels_after, !fetch_after.
  cbn [w_log w_app w_store w_dbOpen w_localStorage w_fetches].
  rewrite !skipn_length_app. repeat split.
Qed.

Lemma mapM_null_rejects (f : JSON -> M Model) items w :
  (forall m w', m <> JNull -> exists y, f m w' = (Resolved y, w')) ->
  (forall w', exists message, f JNull w' = (Rejected (ErrorObj message), w')) ->
  In JNull items ->
  exists message, fst (mapM f items w) = Rejected (ErrorObj message).
Proof.
  intros Hok Hnull. induction items as [|m rest IH]; simpl; [tauto|].
  intros Hin. unfold bind.
  assert (Hm : m = JNull \/ m <> JNull)
    by (destruct m; (now left) || (right; discriminate)).
  destruct Hm as [->|Hm].
  - destruct (Hnull w) as [message ->]. simpl. eauto.
  - destruct (Hok m w Hm) as [y ->].
    destruct Hin as [Hin|Hin]; [congruence|].
    destruct (IH Hin) as [message Hr].
    destruct (mapM f rest w) as [[ys|e] w2]; simpl in *; try discriminate.
    exists message; congruence.
Qed.

(** X10: a model listing fails with the status text alone on a non-2xx
    response, and with an [Error] when a 2xx body is not JSON or is [null],
    or when the array under [data] has a [null] element. *)
Theorem fetchModels_failures : forall config w response,
  w_net w (w_fetches w) = inr response ->
  let result := outcome (apiService.fetchModels config) w in
  (r_ok response = false ->
     result = Rejected (ErrorObj ("Failed to fetch models: " ++ r_statusText response)))
  /\ (r_ok response = true ->
      r_json response = None \/ r_json response = Some JNull ->
      exists message, result = Rejected (ErrorObj message))
  /\ (r_ok response = true ->
      forall data items,
        r_json response = Some data ->
        field data "data" = Some (JArray items) ->
        In JNull items ->
        exists message, result = Rejected (ErrorObj message)).
Proof.
  intros config w response Hnet result.
  unfold result, outcome, apiService.fetchModels, bind, fetch. rewrite Hnet.
  split; [|split].
  - intros ->. reflexivity.
  - intros -> [H|H]; unfold json; rewrite H; simpl; eauto.
  - intros -> data items Hjson Hdata Hin. unfold json. rewrite Hjson. simpl.
    destruct data as [| | | | |fields]; try discriminate.
    unfold field in Hdata. simpl in Hdata. simpl. rewrite Hdata. simpl.
    apply mapM_null_rejects; auto.
    + intros m w' Hm. destruct m; try congruence; eexists; reflexivity.
    + intros w'. eexists; reflexivity.
Qed.

Lemma fetchModels_failures_witness :
  let w := world_of no_app healthy (answering unavailable) in
  w_net w (w_fetches w) = inr unavailable
  /\ r_ok unavailable = false
  /\ outcome (apiService.fetchModels local_settings) w
     = Rejected (ErrorObj "Failed to fetch models: Service Unavailable").
Proof.
  split; [reflexivity|]. split; [reflexivity|].
  destruct (fetchModels_failures local_settings
              (world_of no_app healthy (answering unavailable)) unavailable eq_refl)
    as (H & _).
  exact (H eq_refl).
Defined.

Lemma trimStart_blank s : blank s = true -> trimStart s = "".
Proof.
  induction s as [|c s IH]; simpl; auto.
  intros H. apply andb_true_iff in H. destruct H as [Hc Hs]. rewrite Hc. auto.
Qed.

(** X13: a host name made of white space only, the empty one included,
    normalises to [https:/], so that the model listing is requested from
    [https://v1/models]. *)
Theorem blank_hostname_request : forall h key m w,
  blank h = true ->
  apiService.normalizeHostname h = "https:/"
  /\ trace (apiService.fetchModels (mkSettings h key m)) w
     = [NetFetch "https://v1/models" "GET" (apiService.getHeaders key) None].
Proof.
  intros h key m w Hb.
  assert (Hn : apiService.normalizeHostname h = "https:/").
  { unfold apiService.normalizeHostname, trim. now rewrite (trimStart_blank h Hb). }
  split; [exact Hn|].
  unfold trace. change (snd (apiService.fetchModels (mkSettings h key m) w))
    with (after (apiService.fetchModels (mkSettings h key m)) w).
  rewrite fetchModels_after, fetch_after.
  cbn [w_log hostname apiKey]. rewrite skipn_length_app, Hn. reflexivity.
Qed.

Lemma blank_hostname_request_witness :
  let w := world_of no_app healthy (answering hello) in
  blank "   " = true
  /\ apiService.normalizeHostname "   " = "https:/"
  /\ trace (apiService.fetchModels (mkSettings "   " None "")) w
     = [NetFetch "https://v1/models" "GET" (apiService.getHeaders None) None].
Proof.
  split; [reflexivity|].
  exact (blank_hostname_request "   " None ""
           (world_of no_app healthy (answering hello)) eq_refl).
Defined.

Lemma split_comma_no_comma s :
  no_comma s = true -> APIService.split_comma s = [s].
Proof.
  induction s as [|c s IH]; simpl; auto.
  intros H. apply andb_true_iff in H. destruct H as [Hc Hs].
  apply negb_true_iff in Hc. rewrite Hc, (IH Hs). reflexivity.
Qed.

Lemma split_comma_app a b :
  no_comma a = true ->
  APIService.split_comma (a ++ "," ++ b) = a :: APIService.split_comma b.
Proof.
  induction a as [|c a IH]; simpl; auto.
  intros H. apply andb_true_iff in H. destruct H as [Hc Ha].
  apply negb_true_iff in Hc. rewrite Hc. simpl in IH. rewrite (IH Ha). reflexivity.
Qed.

(** X12: of a data URL whose header has no comma, [readFileAsBase64] keeps
    what stands between the first comma and the next one, that is the whole
    payload when the payload has no comma; a text without a comma gives
    [undefined]. *)
Theorem base64_of_data_url : forall header payload rest,
  no_comma header = true ->
  no_comma payload = true ->
  APIService.base64_of (header ++ "," ++ payload) = Some payload
  /\ APIService.base64_of (header ++ "," ++ payload ++ "," ++ rest) = Some payload
  /\ APIService.base64_of header = None.
Proof.
  intros header payload rest Hh Hp. unfold APIService.base64_of.
  rewrite !split_comma_app by assumption.
  rewrite (split_comma_no_comma header), (split_comma_no_comma payload)
    by assumption.
  repeat split.
Qed.

Lemma base64_of_data_url_witness :
  no_comma "data:text/plain;base64" = true
  /\ no_comma "VA==" = true
  /\ APIService.base64_of ("data:text/plain;base64" ++ "," ++ "VA==") = Some "VA=="
  /\ APIService.base64_of ("data:text/plain;base64" ++ "," ++ "VA==" ++ "," ++ "x")
     = Some "VA=="
  /\ APIService.base64_of "data:text/plain;base64" = None.
Proof.
  split; [reflexivity|]. split; [reflexivity|].
  exact (base64_of_data_url "data:text/plain;base64" "VA==" "x" eq_refl eq_refl).
Defined.

(** ** Embeddings *)

Lemma when_truthy_embedding_guard data_data data :
  data_data = get_opt (Some data) "data" ->
  when_truthy (and_then data_data (get_opt (first data_data) "embedding"))
  = when_truthy (openai_embedding data).
Proof.
  intros ->. unfold openai_embedding, and_then.
  destruct (truthy (get_opt (Some data) "data")) eqn:E; auto.
  destruct (get_opt (Some data) "data") as [[| | | s | |]|];
    simpl in *; try discriminate; auto.
  - destruct b; simpl in *; try discriminate; auto.
  - destruct z; simpl in *; try discriminate; auto.
  - destruct s; simpl in *; try discriminate; auto.
Qed.

(** Unfold the plumbing of [U]. *)
Ltac runU :=
  cbv beta iota zeta delta
      [bindU retU throwU liftU try_catchU finallyU update
       outcomeU shell_after world_after
       Embeddings.setEmbeddings Embeddings.setEmbeddingsFileName
       Embeddings.setIsEmbeddingsModalOpen Embeddings.alert
       ChatInterface.setInput ChatInterface.setAttachedFiles
       ChatInterface.console_error
       APIConfigModal.setSelectedModel APIConfigModal.setModels
       APIConfigModal.setError APIConfigModal.setTestSuccess];
  cbn [fst snd].

(** X11: an embedding call posts the request as it is to the normalised host
    followed by [/v1/embeddings]; a non-2xx response is rejected with the
    status text and the body; a 2xx body that parses to a value other than
    [null] is answered with [data[0].embedding] when that is truthy, else
    with [embedding] when that is truthy, and is rejected as an unexpected
    format otherwise. *)
Theorem getEmbedding_dialects : forall config request sh w response,
  w_net w (w_fetches w) = inr response ->
  let result := outcomeU (APIService.getEmbedding config request) sh w in
  sh_notices (shell_after (APIService.getEmbedding config request) sh w)
  = (sh_notices sh ++
     [EmbeddingFetch (apiService.normalizeHostname (hostname config) ++ "/v1/embeddings")
                     "POST" (apiService.getHeaders (apiKey config)) request])%list
  /\ (r_ok response = false ->
      result = Rejected (ErrorObj ("Embedding request failed: "
                                     ++ r_statusText response ++ " - "
                                     ++ r_text response)))
  /\ (r_ok response = true -> forall data, r_json response = Some data ->
      data <> JNull ->
      match accepted_embedding data with
      | Some embedding => result = Resolved embedding
      | None => result = Rejected (ErrorObj "Unexpected embedding response format")
      end).
Proof.
  intros config request sh w response Hnet result.
  unfold result, APIService.getEmbedding, fetch_embedding. runU.
  rewrite Hnet. destruct (r_ok response) eqn:Hok; cbn [negb].
  - unfold json. destruct (r_json response) as [data|]; runU.
    + split.
      { destruct data as [| | | | |fields]; cbn; auto.
        rewrite (when_truthy_embedding_guard (lookup "data" fields) (JObject fields) eq_refl).
        destruct (when_truthy (openai_embedding (JObject fields))); cbn; auto.
        destruct (when_truthy (lookup "embedding" fields)); cbn; auto. }
      split; [discriminate|]. intros _ d Hd Hn. inversion Hd; subst d.
      unfold accepted_embedding.
      destruct data as [| | | | |fields]; try congruence; cbn; auto.
      rewrite (when_truthy_embedding_guard (lookup "data" fields) (JObject fields) eq_refl).
      destruct (when_truthy (openai_embedding (JObject fields))); cbn; auto.
      unfold flat_embedding. cbn.
      destruct (when_truthy (lookup "embedding" fields)); cbn; auto.
    + cbn. split; auto. split; [discriminate|]. intros _ d Hd. discriminate.
  - cbn. split; auto. split; auto. discriminate.
Qed.

Lemma getEmbedding_dialects_witness :
  let response := ok_response (JObject [("embedding", JArray [JNum 1; JNum 2])]) in
  let w := world_of no_app healthy (answering response) in
  let sh := shell_of idle_chat empty_dialog in
  let request := mkEmbeddingRequest "m2" "some text" in
  w_net w (w_fetches w) = inr response
  /\ outcomeU (APIService.getEmbedding local_settings request) sh w
     = Resolved (JArray [JNum 1; JNum 2]).
Proof.
  split; [reflexivity|].
  destruct (getEmbedding_dialects local_settings
              (mkEmbeddingRequest "m2" "some text")
              (shell_of idle_chat empty_dialog)
              (world_of no_app healthy
                 (answering (ok_response
                    (JObject [("embedding", JArray [JNum 1; JNum 2])]))))
              _ eq_refl) as (_ & _ & H).
  refine (H eq_refl _ eq_refl _). discriminate.
Defined.

(** ** New and deleted conversations *)

(** The plumbing of [M] without the store, whose calls stay folded. *)
Ltac run_app :=
  cbv beta iota zeta delta
      [bind ret throw try_catch settle Date_now randomUUID
       App.setConversations App.setCurrentConversationId App.setIsConfigModalOpen
       App.setApiConfig App.localStorage_setItem App.saveConfig with_app];
  cbn [w_app w_dbOpen w_store w_localStorage w_log w_clock w_clockReads w_uuid
       w_uuidReads w_idbFault w_idbRequests w_net w_fetches
       conversations currentConversationId isConfigModalOpen apiConfig
       c_id c_title c_messages c_createdAt c_updatedAt c_apiConfig
       fst snd orb].

(** A save that nobody waits for: the call is logged, and the record is put
    or the store is as it was. *)
Lemma detached_save c w :
  exists opened records requests,
    detached (db.saveConversation c) w
    = (Resolved tt,
       mkWorld (w_app w) opened records (w_localStorage w) (w_log w ++ [DbSave c])
               (w_clock w) (w_clockReads w) (w_uuid w) (w_uuidReads w)
               (w_idbFault w) requests (w_net w) (w_fetches w))
    /\ (records = db.put c (w_store w) \/ records = w_store w).
Proof.
  unfold detached. run.
  destruct (w_dbOpen w); run;
    repeat (match goal with
            | |- context [w_idbFault ?w ?n] => destruct (w_idbFault w n) eqn:?
            end; run);
    do 3 eexists; split; try reflexivity; auto.
Qed.

(** X14: with a configuration present, a new conversation with a fresh id,
    the title [New Conversation], no messages, the clock's readings and a
    copy of the configuration is put first in the list, selected and handed
    to the store; the handler resolves whether or not the store accepts it.
    Without a configuration only the configuration dialog is opened. *)
Theorem new_conversation_outcome : forall w,
  let m := App.dispatch App.handleNewConversation in
  let w' := after m w in
  outcome m w = Resolved tt
  /\ apiConfig (w_app w') = apiConfig (w_app w)
  /\ match apiConfig (w_app w) with
     | Some cfg =>
         let fresh :=
           mkConversation (w_uuid w (w_uuidReads w)) "New Conversation" []
                          (w_clock w (w_clockReads w))
                          (w_clock w (S (w_clockReads w))) cfg in
         conversations (w_app w') = fresh :: conversations (w_app w)
         /\ currentConversationId (w_app w') = Some (c_id fresh)
         /\ App.getCurrentConversation (w_app w') = Some fresh
         /\ isConfigModalOpen (w_app w') = isConfigModalOpen (w_app w)
         /\ saves (trace m w) = [fresh]
         /\ (w_store w' = db.put fresh (w_store w) \/ w_store w' = w_store w)
     | None =>
         conversations (w_app w') = conversations (w_app w)
         /\ currentConversationId (w_app w') = currentConversationId (w_app w)
         /\ isConfigModalOpen (w_app w') = true
         /\ trace m w = []
         /\ w_store w' = w_store w
     end.
Proof.
  intros w. cbv zeta.
  unfold outcome, after, trace, App.dispatch.
  destruct (App.handleNewConversation (w_app w) w) as [o w1] eqn:E.
  revert E. unfold App.handleNewConversation.
  destruct (apiConfig (w_app w)) as [cfg|] eqn:Ha.
  - destruct cfg as [h k m]. cbn [hostname apiKey model].
    run_app.
    match goal with
    | |- context [detached (db.saveConversation ?c) ?W] =>
        destruct (detached_save c W) as (opened & records & requests & -> & Hrec)
    end.
    run_app. intros E. inversion E; subst; clear E. tidy.
    unfold App.getCurrentConversation, App.is_current.
    cbn [conversations currentConversationId find c_id].
    rewrite String.eqb_refl. repeat split; auto.
  - run_app. intros E. inversion E; subst; clear E. tidy. repeat split; auto.
Qed.

Lemma find_filter_other (p : string -> bool) id l :
  p id = false ->
  find (fun c => p (c_id c)) (filter (fun c => negb (String.eqb (c_id c) id)) l)
  = find (fun c => p (c_id c)) l.
Proof.
  intros Hp. induction l as [|c l IH]; simpl; auto.
  destruct (String.eqb (c_id c) id) eqn:E; simpl.
  - apply String.eqb_eq in E. rewrite E, Hp. exact IH.
  - destruct (p (c_id c)); auto.
Qed.

(** X15: with a store that accepts its requests, deleting a conversation
    resolves, removes every entry with that id from the list and keeps the
    others in their order, clears the selection exactly when the deleted
    conversation was the selected one, and leaves no record under that id. *)
Theorem delete_conversation_removes : forall w id,
  store_accepts w ->
  let m := App.dispatch (fun s => App.handleDeleteConversation s id) in
  let w' := after m w in
  outcome m w = Resolved tt
  /\ conversations (w_app w')
     = filter (fun c => negb (String.eqb (c_id c) id)) (conversations (w_app w))
  /\ (forall c, In c (conversations (w_app w'))
               <-> In c (conversations (w_app w)) /\ c_id c <> id)
  /\ currentConversationId (w_app w')
     = (if App.is_current (w_app w) id then None
        else currentConversationId (w_app w))
  /\ App.getCurrentConversation (w_app w')
     = (if App.is_current (w_app w) id then None
        else App.getCurrentConversation (w_app w))
  /\ stored id w' = None
  /\ saves (trace m w) = [].
Proof.
  intros w id Hok. cbv zeta.
  assert (Hin : forall c l,
             In c (filter (fun c => negb (String.eqb (c_id c) id)) l)
             <-> In c l /\ c_id c <> id).
  { intros c l. rewrite filter_In, negb_true_iff, String.eqb_neq. tauto. }
  assert (Hnever : forall l : list Conversation, find (fun _ => false) l = None)
    by (induction l; auto).
  unfold outcome, after, trace, stored, App.dispatch, App.handleDeleteConversation,
    App.getCurrentConversation, App.is_current.
  run. destruct (w_dbOpen w); run; repeat (accept_requests; run).
  all: destruct (currentConversationId (w_app w)) as [current|] eqn:Hcur; run.
  all: try (rewrite (String.eqb_sym id current)).
  all: try destruct (String.eqb current id) eqn:E; tidy.
  all: rewrite ?find_remove, ?Hnever.
  all: split; [reflexivity|]; split; [reflexivity|]; split; [intros c; apply Hin|].
  all: split; [reflexivity|]; split; [|split; reflexivity].
  all: try reflexivity.
  all: apply (find_filter_other (fun i => String.eqb i current)).
  all: now rewrite String.eqb_sym.
Qed.

(** X16: a delete that the store rejects is rejected in turn, and the list,
    the selection and the store are as they were. *)
Theorem rejected_delete_changes_nothing : forall w id e,
  outcome (App.dispatch (fun s => App.handleDeleteConversation s id)) w = Rejected e ->
  w_app (after (App.dispatch (fun s => App.handleDeleteConversation s id)) w) = w_app w
  /\ w_store (after (App.dispatch (fun s => App.handleDeleteConversation s id)) w)
     = w_store w
  /\ exists message, e = ErrorObj message.
Proof.
  intros w id e.
  unfold outcome, after, App.dispatch, App.handleDeleteConversation.
  run. destruct (w_dbOpen w); run;
    repeat (match goal with
            | |- context [w_idbFault ?w ?n] => destruct (w_idbFault w n) eqn:?
            end; run);
    try (destruct (currentConversationId (w_app w)) as [current|]; run;
         try destruct (String.eqb current id); run);
    try discriminate; intros H; inversion H; eauto.
Qed.

Lemma rejected_delete_changes_nothing_witness :
  let w := world_of chatting (failing_at 1 "AbortError") (answering hello) in
  let m := App.dispatch (fun s => App.handleDeleteConversation s "c1") in
  outcome m w = Rejected (ErrorObj "AbortError")
  /\ w_app (after m w) = w_app w
  /\ w_store (after m w) = w_store w
  /\ exists message, ErrorObj "AbortError" = ErrorObj message.
Proof.
  split; [reflexivity|].
  exact (rejected_delete_changes_nothing
           (world_of chatting (failing_at 1 "AbortError") (answering hello))
           "c1" (ErrorObj "AbortError") eq_refl).
Defined.

Lemma delete_conversation_removes_witness :
  let w := world_of chatting healthy (answering hello) in
  let m := App.dispatch (fun s => App.handleDeleteConversation s "c1") in
  let w' := after m w in
  store_accepts w
  /\ outcome m w = Resolved tt
  /\ conversations (w_app w')
     = filter (fun c => negb (String.eqb (c_id c) "c1")) (conversations (w_app w))
  /\ (forall c, In c (conversations (w_app w'))
               <-> In c (conversations (w_app w)) /\ c_id c <> "c1")
  /\ currentConversationId (w_app w')
     = (if App.is_current (w_app w) "c1" then None
        else currentConversationId (w_app w))
  /\ App.getCurrentConversation (w_app w')
     = (if App.is_current (w_app w) "c1" then None
        else App.getCurrentConversation (w_app w))
  /\ stored "c1" w' = None
  /\ saves (trace m w) = [].
Proof.
  assert (H : store_accepts (world_of chatting healthy (answering hello)))
    by (intros n _; reflexivity).
  split; [exact H|].
  exact (delete_conversation_removes
           (world_of chatting healthy (answering hello)) "c1" H).
Defined.

(** ** More about a send *)

Ltac accept_or_fork := first [accept_requests | fork].

Lemma find_put_id c id records :
  c_id c = id ->
  find (fun x => String.eqb (c_id x) id) (db.put c records) = Some c.
Proof. intros <-. apply find_put. Qed.

(** X17: when the store accepts the writes of a send and its chat call
    resolves, the send resolves; the conversation gains the user message,
    with the attachments as read, and one assistant message with the reply
    and no attachments; it is saved twice, first with the user message
    alone, then as settled; and the settled conversation is republished and
    is the record the store holds. *)
Theorem reply_is_appended :
  forall s content attachments w conversation cfg url request reply,
    App.getCurrentConversation s = Some conversation ->
    apiConfig s = Some cfg ->
    store_accepts w ->
    In (url, request)
       (chat_requests (trace (App.handleSendMessage s content attachments) w)) ->
    outcome (apiService.sendChatMessage cfg request) w = Resolved reply ->
    exists userMessage assistantMessage optimistic settled,
      outcome (App.handleSendMessage s content attachments) w = Resolved tt
      /\ saves (trace (App.handleSendMessage s content attachments) w)
         = [optimistic; settled]
      /\ c_messages optimistic = (c_messages conversation ++ [userMessage])%list
      /\ c_messages settled
         = (c_messages conversation ++ [userMessage; assistantMessage])%list
      /\ userMessage
         = mkMessage user (JString content) (w_clock w (w_clockReads w))
             (option_map
                (map (fun f => mkAttachment (f_name f) (f_type f)
                                 (match f_base64 f with Some d => d | None => "" end)))
                attachments)
      /\ assistantMessage
         = mkMessage assistant reply (w_clock w (2 + w_clockReads w)) None
      /\ extends conversation settled
      /\ c_updatedAt settled = w_clock w (3 + w_clockReads w)
      /\ conversations (w_app (after (App.handleSendMessage s content attachments) w))
         = map (fun c => if String.eqb (c_id c) (c_id conversation) then settled else c)
               (conversations (w_app w))
      /\ stored (c_id conversation)
                (after (App.handleSendMessage s content attachments) w)
         = Some settled.
Proof.
  intros s content attachments w conversation cfg url request reply
         Hc Ha Hidb Hin Hout.
  assert (Hall : forall files data,
             all (fun file =>
                    option_map (mkAttachment (f_name file) (f_type file))
                               (apiService.readFileAsBase64 file)) files = Some data ->
             data = map (fun f => mkAttachment (f_name f) (f_type f)
                                    (match f_base64 f with Some d => d | None => "" end))
                        files).
  { induction files as [|f files IH]; simpl; intros data H.
    - now inversion H.
    - unfold apiService.readFileAsBase64 in *.
      destruct (f_base64 f); simpl in H; [|discriminate].
      destruct (all _ files) as [rest|]; [|discriminate].
      inversion H. f_equal. now apply IH. }
  unfold trace in Hin. unfold trace, outcome, after, stored, extends.
  destruct (App.handleSendMessage s content attachments w) as [o w'] eqn:E.
  revert E Hin. unfold App.handleSendMessage. rewrite Hc, Ha.
  destruct attachments as [files|];
    run; repeat (accept_or_fork; run);
    intros E; inversion E; subst; clear E; tidy;
    try tauto; try discriminate;
    (intros [H|[]]; inversion H; subst; clear H);
    match goal with
    | Ho : outcome (apiService.sendChatMessage ?c ?r0) w = Resolved _,
      Hw : outcome (apiService.sendChatMessage ?c ?r) ?W = _
      |- _ =>
        lazymatch W with w => fail | _ => idtac end;
        rewrite (sendChatMessage_outcome c r0 w c r W eq_refl) in Hw
    end.
  all: try congruence.
  all: match goal with
       | Hw : outcome _ _ = Resolved ?x |- _ =>
           assert (x = reply) by congruence; subst x
       end.
  all: try match goal with
       | Hd : all _ _ = Some ?l |- _ => apply Hall in Hd; subst l
       end.
  all: do 4 eexists.
  all: repeat (split; [reflexivity|]).
  all: cbn [option_map]; repeat (split; [reflexivity|]).
  all: split; [repeat split; eexists; split; [|reflexivity]; discriminate|].
  all: split; [reflexivity|].
  all: split; [apply republish_twice; reflexivity | apply find_put_id; reflexivity].
Qed.

Lemma reply_is_appended_witness :
  let w := world_of chatting healthy (answering hello) in
  let m := App.handleSendMessage chatting "hi" (Some [notes_txt]) in
  let url := "https://localhost:11434/v1/chat/completions" in
  let request := mkChatRequest "m2" [mkChatMessage user (JString "hi")] (Some false) in
  App.getCurrentConversation chatting = Some fresh_conversation
  /\ apiConfig chatting = Some local_settings
  /\ store_accepts w
  /\ In (url, request) (chat_requests (trace m w))
  /\ outcome (apiService.sendChatMessage local_settings request) w
     = Resolved (JString "hello")
  /\ exists userMessage assistantMessage optimistic settled,
      outcome m w = Resolved tt
      /\ saves (trace m w) = [optimistic; settled]
      /\ c_messages optimistic = (c_messages fresh_conversation ++ [userMessage])%list
      /\ c_messages settled
         = (c_messages fresh_conversation ++ [userMessage; assistantMessage])%list
      /\ userMessage
         = mkMessage user (JString "hi") (w_clock w (w_clockReads w))
             (option_map
                (map (fun f => mkAttachment (f_name f) (f_type f)
                                 (match f_base64 f with Some d => d | None => "" end)))
                (Some [notes_txt]))
      /\ assistantMessage
         = mkMessage assistant (JString "hello") (w_clock w (2 + w_clockReads w)) None
      /\ extends fresh_conversation settled
      /\ c_updatedAt settled = w_clock w (3 + w_clockReads w)
      /\ conversations (w_app (after m w))
         = map (fun c => if String.eqb (c_id c) (c_id fresh_conversation)
                         then settled else c)
               (conversations (w_app w))
      /\ stored (c_id fresh_conversation) (after m w) = Some settled.
Proof.
  split; [reflexivity|]. split; [reflexivity|].
  split; [intros n _; reflexivity|].
  split; [vm_compute; left; reflexivity|].
  split; [reflexivity|].
  apply (reply_is_appended chatting "hi" (Some [notes_txt])
           (world_of chatting healthy (answering hello))
           fresh_conversation local_settings
           "https://localhost:11434/v1/chat/completions"
           (mkChatRequest "m2" [mkChatMessage user (JString "hi")] (Some false))
           (JString "hello")).
  - reflexivity.
  - reflexivity.
  - intros n _; reflexivity.
  - vm_compute; left; reflexivity.
  - reflexivity.
Defined.

Lemma republished_relation (R : Conversation -> Conversation -> Prop) id x l :
  (forall c, R c c) ->
  (forall c, In c l -> c_id c = id -> R c x) ->
  Forall2 R l (map (fun c => if String.eqb (c_id c) id then x else c) l).
Proof.
  intros Hrefl. induction l as [|c l IH]; intros Hx; simpl; constructor.
  - destruct (String.eqb (c_id c) id) eqn:E; auto.
    apply Hx; [now left | now apply String.eqb_eq].
  - apply IH. intros c' Hin. apply Hx. now right.
Qed.

Lemma Forall2_same {A} (R : A -> A -> Prop) l : (forall c, R c c) -> Forall2 R l l.
Proof. intros H. induction l; constructor; auto. Qed.

(** X18: a send never changes the selection, the configuration or the
    dialog flag, and it keeps the list entry by entry: an entry is left as
    it was, or it bore the id of the selected conversation and is now that
    conversation with messages added at the end, its id, creation time and
    pinned configuration unchanged. *)
Theorem send_changes_one_conversation : forall w content attachments,
  let m := App.dispatch (fun s => App.handleSendMessage s content attachments) in
  let a := w_app w in
  let a' := w_app (after m w) in
  currentConversationId a' = currentConversationId a
  /\ apiConfig a' = apiConfig a
  /\ isConfigModalOpen a' = isConfigModalOpen a
  /\ Forall2
       (fun before after =>
          after = before
          \/ exists conversation,
               App.getCurrentConversation a = Some conversation
               /\ c_id before = c_id conversation
               /\ extends conversation after)
       (conversations a) (conversations a').
Proof.
  intros w content attachments. cbv zeta.
  unfold after, App.dispatch.
  destruct (App.handleSendMessage (w_app w) content attachments w) as [o w'] eqn:E.
  revert E. unfold App.handleSendMessage.
  destruct (App.getCurrentConversation (w_app w)) as [conversation|] eqn:Hc.
  2: { run. intros E. inversion E; subst. repeat split; auto.
       apply Forall2_same. now left. }
  destruct (apiConfig (w_app w)) as [cfg|] eqn:Ha.
  2: { run. intros E. inversion E; subst. repeat split; auto.
       apply Forall2_same. now left. }
  destruct attachments as [files|]; paths;
    intros E; inversion E; subst; clear E; tidy.
  all: repeat (split; [assumption || reflexivity|]).
  all: try (apply Forall2_same; now left).
  all: rewrite ?republish_twice by reflexivity.
  all: apply republished_relation; [now left|].
  all: intros c _ Hid; right; exists conversation.
  all: split; [reflexivity|]; split; [exact Hid|].
  all: unfold extends; cbn [c_id c_createdAt c_apiConfig c_messages].
  all: repeat split; eexists; split; [|reflexivity]; discriminate.
Qed.

(** X19: whenever a send has put a chat request on the wire, the store holds
    the conversation with the user's message in it when the send is over,
    whatever became of the request and of the later writes. *)
Theorem user_message_is_durable :
  forall s content attachments w conversation url request,
    App.getCurrentConversation s = Some conversation ->
    In (url, request)
       (chat_requests (trace (App.handleSendMessage s content attachments) w)) ->
    exists kept userMessage later,
      stored (c_id conversation) (after (App.handleSendMessage s content attachments) w)
      = Some kept
      /\ c_messages kept = (c_messages conversation ++ userMessage :: later)%list
      /\ m_role userMessage = user
      /\ m_content userMessage = JString content
      /\ exists first_save headers others,
          trace (App.handleSendMessage s content attachments) w
          = DbSave first_save :: NetFetch url "POST" headers (Some request) :: others
          /\ c_messages first_save = (c_messages conversation ++ [userMessage])%list.
Proof.
  intros s content attachments w conversation url request Hc Hin.
  unfold trace in Hin. unfold trace, after, stored.
  destruct (App.handleSendMessage s content attachments w) as [o w'] eqn:E.
  revert E Hin. unfold App.handleSendMessage. rewrite Hc.
  destruct (apiConfig s) as [cfg|].
  2: { run. intros E. inversion E; subst. rewrite skipn_length_self. simpl. tauto. }
  destruct attachments as [files|]; paths; intros E; inversion E; subst; clear E;
    tidy; try tauto; try discriminate;
    (intros [H|[]]; inversion H; subst; clear H).
  all: do 3 eexists.
  all: split; [apply find_put_id; reflexivity|].
  all: cbn [c_messages]; rewrite <- ?app_assoc; cbn [app].
  all: split; [reflexivity|].
  all: split; [reflexivity|]; split; [reflexivity|].
  all: do 3 eexists; split; reflexivity.
Qed.

Lemma user_message_is_durable_witness :
  let w := world_of chatting (failing_at 2 "QuotaExceededError")
                    (answering unavailable) in
  let m := App.handleSendMessage chatting "hi" None in
  let url := "https://localhost:11434/v1/chat/completions" in
  let request := mkChatRequest "m2" [mkChatMessage user (JString "hi")] (Some false) in
  App.getCurrentConversation chatting = Some fresh_conversation
  /\ In (url, request) (chat_requests (trace m w))
  /\ exists kept userMessage later,
      stored (c_id fresh_conversation) (after m w) = Some kept
      /\ c_messages kept = (c_messages fresh_conversation ++ userMessage :: later)%list
      /\ m_role userMessage = user
      /\ m_content userMessage = JString "hi"
      /\ exists first_save headers others,
          trace m w
          = DbSave first_save :: NetFetch url "POST" headers (Some request) :: others
          /\ c_messages first_save
             = (c_messages fresh_conversation ++ [userMessage])%list.
Proof.
  split; [reflexivity|].
  split; [vm_compute; left; reflexivity|].
  apply (user_message_is_durable chatting "hi" None
           (world_of chatting (failing_at 2 "QuotaExceededError")
                     (answering unavailable))
           fresh_conversation).
  - reflexivity.
  - vm_compute; left; reflexivity.
Defined.

Lemma all_none {A B} (f : A -> option B) x xs :
  In x xs -> f x = None -> all f xs = None.
Proof.
  induction xs as [|y ys IH]; simpl; [tauto|].
  intros [->|Hin] Hx.
  - now rewrite Hx.
  - rewrite (IH Hin Hx). now destruct (f y).
Qed.

(** X20: when one of the attached files cannot be read for storage, the
    send is rejected before anything happens: nothing is saved, nothing is
    sent, and the state and the world are as they were. *)
Theorem unreadable_attachment_aborts :
  forall s content files file w conversation cfg,
    App.getCurrentConversation s = Some conversation ->
    apiConfig s = Some cfg ->
    In file files ->
    apiService.readFileAsBase64 file = None ->
    App.handleSendMessage s content (Some files) w = (Rejected NonError, w).
Proof.
  intros s content files file w conversation cfg Hc Ha Hin Hread.
  unfold App.handleSendMessage. rewrite Hc, Ha.
  run.
  rewrite (all_none _ file files Hin); [reflexivity|].
  now rewrite Hread.
Qed.

Lemma unreadable_attachment_aborts_witness :
  let torn := mkFile "b.bin" "application/octet-stream" None None in
  let w := world_of chatting healthy (answering hello) in
  App.getCurrentConversation chatting = Some fresh_conversation
  /\ apiConfig chatting = Some local_settings
  /\ In torn [notes_txt; torn]
  /\ apiService.readFileAsBase64 torn = None
  /\ App.handleSendMessage chatting "hi" (Some [notes_txt; torn]) w
     = (Rejected NonError, w).
Proof.
  split; [reflexivity|]. split; [reflexivity|].
  split; [right; left; reflexivity|]. split; [reflexivity|].
  apply (unreadable_attachment_aborts chatting "hi"
           [notes_txt; mkFile "b.bin" "application/octet-stream" None None]
           (mkFile "b.bin" "application/octet-stream" None None)
           (world_of chatting healthy (answering hello))
           fresh_conversation local_settings).
  - reflexivity.
  - reflexivity.
  - right; left; reflexivity.
  - reflexivity.
Defined.

Lemma all_some {A B} (f : A -> option B) xs :
  (forall x, In x xs -> f x <> None) -> exists ys, all f xs = Some ys.
Proof.
  induction xs as [|x xs IH]; simpl; intros H; [eauto|].
  destruct (f x) eqn:E; [|exfalso; apply (H x); auto].
  destruct IH as [ys ->]; eauto.
Qed.

(** X21: when the files can be read for storage and the store accepts the
    writes, but the text of a text attachment cannot be read, no chat
    request is made: the send resolves with the user message followed by
    the assistant message [Error: Failed to get response]. *)
Theorem unreadable_text_becomes_message :
  forall s content files file w conversation cfg,
    App.getCurrentConversation s = Some conversation ->
    apiConfig s = Some cfg ->
    store_accepts w ->
    (forall f, In f files -> apiService.readFileAsBase64 f <> None) ->
    In file files ->
    startsWith (f_type file) "text/" = true ->
    apiService.readFileAsText file = None ->
    let m := App.handleSendMessage s content (Some files) in
    outcome m w = Resolved tt
    /\ chat_requests (trace m w) = []
    /\ exists settled userMessage errorMessage,
        stored (c_id conversation) (after m w) = Some settled
        /\ c_messages settled
           = (c_messages conversation ++ [userMessage; errorMessage])%list
        /\ m_content userMessage = JString content
        /\ m_role errorMessage = assistant
        /\ m_content errorMessage = JString "Error: Failed to get response".
Proof.
  intros s content files file w conversation cfg Hc Ha Hidb Hb Hin Htype Htext.
  cbv zeta. unfold outcome, trace, after, stored.
  destruct (App.handleSendMessage s content (Some files) w) as [o w'] eqn:E.
  revert E. unfold App.handleSendMessage. rewrite Hc, Ha.
  destruct (all_some
              (fun file => option_map (mkAttachment (f_name file) (f_type file))
                                      (apiService.readFileAsBase64 file)) files)
    as [data Hdata].
  { intros f Hf. specialize (Hb f Hf).
    destruct (apiService.readFileAsBase64 f); simpl; congruence. }
  run.
  assert (Htexts :
            all (fun f =>
                   option_map
                     (fun text => App.LF ++ App.LF ++ "File: " ++ f_name f ++ App.LF ++ text)
                     (apiService.readFileAsText f))
                (filter (fun f => startsWith (f_type f) "text/") files) = None).
  { apply (all_none _ file).
    - apply filter_In. auto.
    - now rewrite Htext. }
  assert (Hlen : Nat.ltb 0 (length files) = true)
    by (destruct files; [destruct Hin | reflexivity]).
  rewrite Hdata. run.
  destruct (w_dbOpen w); run; repeat (accept_requests; run).
  all: rewrite Hlen; run; rewrite Htexts; run; repeat (accept_requests; run).
  all: intros E; inversion E; subst; clear E; tidy.
  all: split; [reflexivity|]; split; [reflexivity|].
  all: do 3 eexists; split; [apply find_put_id; reflexivity|].
  all: cbn [c_messages]; rewrite <- ?app_assoc; cbn [app].
  all: repeat split.
Qed.

Lemma unreadable_text_becomes_message_witness :
  let torn := mkFile "b.txt" "text/markdown" None (Some "Yg==") in
  let w := world_of chatting healthy (answering hello) in
  let m := App.handleSendMessage chatting "hi" (Some [notes_txt; torn]) in
  App.getCurrentConversation chatting = Some fresh_conversation
  /\ apiConfig chatting = Some local_settings
  /\ store_accepts w
  /\ (forall f, In f [notes_txt; torn] -> apiService.readFileAsBase64 f <> None)
  /\ In torn [notes_txt; torn]
  /\ startsWith (f_type torn) "text/" = true
  /\ apiService.readFileAsText torn = None
  /\ outcome m w = Resolved tt
  /\ chat_requests (trace m w) = []
  /\ exists settled userMessage errorMessage,
      stored (c_id fresh_conversation) (after m w) = Some settled
      /\ c_messages settled
         = (c_messages fresh_conversation ++ [userMessage; errorMessage])%list
      /\ m_content userMessage = JString "hi"
      /\ m_role errorMessage = assistant
      /\ m_content errorMessage = JString "Error: Failed to get response".
Proof.
  assert (Hb : forall f,
             In f [notes_txt; mkFile "b.txt" "text/markdown" None (Some "Yg==")] ->
             apiService.readFileAsBase64 f <> None)
    by (intros f [<-|[<-|[]]]; discriminate).
  split; [reflexivity|]. split; [reflexivity|].
  split; [intros n _; reflexivity|]. split; [exact Hb|].
  split; [right; left; reflexivity|]. split; [reflexivity|]. split; [reflexivity|].
  apply (unreadable_text_becomes_message chatting "hi"
           [notes_txt; mkFile "b.txt" "text/markdown" None (Some "Yg==")]
           (mkFile "b.txt" "text/markdown" None (Some "Yg=="))
           (world_of chatting healthy (answering hello))
           fresh_conversation local_settings).
  - reflexivity.
  - reflexivity.
  - intros n _; reflexivity.
  - exact Hb.
  - right; left; reflexivity.
  - reflexivity.
  - reflexivity.
Defined.

(** ** Memory and store *)

(** A send that resolves under a configuration leaves memory and store in
    agreement on the selected conversation. *)
Lemma settled_send_agrees w content attachments conversation :
  App.getCurrentConversation (w_app w) = Some conversation ->
  apiConfig (w_app w) <> None ->
  let m := App.dispatch (fun s => App.handleSendMessage s content attachments) in
  outcome m w = Resolved tt ->
  exists settled,
    App.getCurrentConversation (w_app (after m w)) = Some settled
    /\ stored (c_id conversation) (after m w) = Some settled
    /\ extends conversation settled.
Proof.
  intros Hc Ha. cbv zeta.
  unfold outcome, after, stored, App.dispatch.
  destruct (App.handleSendMessage (w_app w) content attachments w) as [o w'] eqn:E.
  revert E. unfold App.handleSendMessage. rewrite Hc.
  destruct (apiConfig (w_app w)) as [cfg|]; [|congruence].
  unfold App.getCurrentConversation in *.
  destruct attachments as [files|]; paths;
    intros E; inversion E; subst; clear E; tidy; try discriminate; intros _.
  all: rewrite ?republish_twice by reflexivity.
  all: eexists; split;
    [ apply (find_republish (App.is_current (w_app w))); [exact Hc | reflexivity] |].
  all: split; [apply find_put_id; reflexivity|].
  all: unfold extends; cbn [c_id c_createdAt c_apiConfig c_messages].
  all: rewrite <- ?app_assoc.
  all: repeat split; eexists; split; [|reflexivity]; discriminate.
Qed.

(** X22: after a send that resolves under a configuration, the selected
    conversation in memory is the record the store holds under its id, and
    it is the earlier conversation with messages added at the end. *)
Theorem memory_matches_store : forall w content attachments conversation,
  App.getCurrentConversation (w_app w) = Some conversation ->
  apiConfig (w_app w) <> None ->
  let m := App.dispatch (fun s => App.handleSendMessage s content attachments) in
  outcome m w = Resolved tt ->
  exists settled,
    App.getCurrentConversation (w_app (after m w)) = Some settled
    /\ stored (c_id conversation) (after m w) = Some settled
    /\ extends conversation settled.
Proof. exact settled_send_agrees. Qed.

Lemma memory_matches_store_witness :
  let w := world_of chatting healthy (answering unavailable) in
  let m := App.dispatch (fun s => App.handleSendMessage s "hi" None) in
  App.getCurrentConversation (w_app w) = Some fresh_conversation
  /\ apiConfig (w_app w) <> None
  /\ outcome m w = Resolved tt
  /\ exists settled,
      App.getCurrentConversation (w_app (after m w)) = Some settled
      /\ stored (c_id fresh_conversation) (after m w) = Some settled
      /\ extends fresh_conversation settled.
Proof.
  split; [reflexivity|]. split; [discriminate|]. split; [reflexivity|].
  apply (memory_matches_store (world_of chatting healthy (answering unavailable))
           "hi" None fresh_conversation).
  - reflexivity.
  - discriminate.
  - reflexivity.
Defined.

(** A listing that nobody waits for: the list becomes the listing, or the
    state is as it was. *)
Lemma detached_load w :
  store_accepts w ->
  exists opened requests,
    detached Mount.loadConversations w
    = (Resolved tt,
       mkWorld (mkAppState (DatabaseService.index_prev (w_store w))
                           (currentConversationId (w_app w))
                           (isConfigModalOpen (w_app w)) (apiConfig (w_app w)))
               opened (w_store w) (w_localStorage w) (w_log w)
               (w_clock w) (w_clockReads w) (w_uuid w) (w_uuidReads w)
               (w_idbFault w) requests (w_net w) (w_fetches w)).
Proof.
  intros Hok.
  unfold detached, Mount.loadConversations, DatabaseService.getAllConversations.
  run. destruct (w_dbOpen w); run; repeat (accept_requests; run);
    rewrite walk_appends; do 2 eexists; reflexivity.
Qed.

Lemma mount_state w :
  store_accepts w ->
  w_app (after Mount.useEffect w)
  = mkAppState (DatabaseService.index_prev (w_store w))
               (currentConversationId (w_app w)) (isConfigModalOpen (w_app w))
               (match w_localStorage w with
                | Some saved => Some saved
                | None => apiConfig (w_app w)
                end).
Proof.
  intros Hok. unfold after, Mount.useEffect, bind.
  destruct (detached_load w Hok) as (opened & requests & ->).
  unfold Mount.loadSavedConfig. cbn [w_localStorage].
  destruct (w_localStorage w); run; reflexivity.
Qed.

(** X23: when the page is loaded again after a send that resolved, and the
    store answers, the list holds the records of the store, newest first,
    the conversation with its new messages among them, and the
    configuration is the one in the settings slot. *)
Theorem reload_restores : forall w content attachments conversation,
  App.getCurrentConversation (w_app w) = Some conversation ->
  apiConfig (w_app w) <> None ->
  let m := App.dispatch (fun s => App.handleSendMessage s content attachments) in
  outcome m w = Resolved tt ->
  store_accepts (after m w) ->
  let w' := after Mount.useEffect (reloaded (after m w)) in
  exists settled,
    App.getCurrentConversation (w_app (after m w)) = Some settled
    /\ In settled (conversations (w_app w'))
    /\ Permutation (conversations (w_app w')) (w_store (after m w))
    /\ StronglySorted newest_first (conversations (w_app w'))
    /\ apiConfig (w_app w') = w_localStorage (after m w)
    /\ currentConversationId (w_app w') = None.
Proof.
  intros w content attachments conversation Hc Ha m Ho Hok w'.
  destruct (settled_send_agrees w content attachments conversation Hc Ha Ho)
    as (settled & Hcur & Hst & _).
  exists settled. split; [exact Hcur|].
  fold m in Hst. unfold stored in Hst. apply find_some in Hst. destruct Hst as [Hin _].
  assert (Hok' : store_accepts (reloaded (after m w))) by exact Hok.
  unfold w'. rewrite (mount_state _ Hok').
  cbn [conversations apiConfig currentConversationId reloaded w_store w_localStorage
       w_app].
  split; [apply (Permutation_in _ (Permutation_sym (index_prev_permutation _))); exact Hin|].
  split; [apply index_prev_permutation|].
  split; [apply index_prev_sorted|].
  split; [|reflexivity].
  now destruct (w_localStorage (after m w)).
Qed.

Lemma reload_restores_witness :
  let w := world_of chatting healthy (answering hello) in
  let m := App.dispatch (fun s => App.handleSendMessage s "hi" None) in
  let w' := after Mount.useEffect (reloaded (after m w)) in
  App.getCurrentConversation (w_app w) = Some fresh_conversation
  /\ apiConfig (w_app w) <> None
  /\ outcome m w = Resolved tt
  /\ store_accepts (after m w)
  /\ exists settled,
      App.getCurrentConversation (w_app (after m w)) = Some settled
      /\ In settled (conversations (w_app w'))
      /\ Permutation (conversations (w_app w')) (w_store (after m w))
      /\ StronglySorted newest_first (conversations (w_app w'))
      /\ apiConfig (w_app w') = w_localStorage (after m w)
      /\ currentConversationId (w_app w') = None.
Proof.
  split; [reflexivity|]. split; [discriminate|]. split; [reflexivity|].
  split; [intros n _; reflexivity|].
  apply (reload_restores (world_of chatting healthy (answering hello))
           "hi" None fresh_conversation).
  - reflexivity.
  - discriminate.
  - reflexivity.
  - intros n _; reflexivity.
Defined.

(** ** Saving the configuration, in general *)

(** X24: saving a configuration always resolves and always writes it to the
    state and to the settings slot.  With a conversation selected nothing
    else changes; with none selected and no earlier configuration only the
    dialog is opened; with none selected and an earlier configuration a new
    conversation is created, pinned to the earlier configuration. *)
Theorem save_config_outcome : forall w config,
  let m := App.dispatch (fun s => App.handleSaveConfig s config) in
  let w' := after m w in
  outcome m w = Resolved tt
  /\ apiConfig (w_app w') = Some config
  /\ w_localStorage w' = Some config
  /\ match App.no_selection (w_app w), apiConfig (w_app w) with
     | false, _ =>
         conversations (w_app w') = conversations (w_app w)
         /\ currentConversationId (w_app w') = currentConversationId (w_app w)
         /\ isConfigModalOpen (w_app w') = isConfigModalOpen (w_app w)
         /\ saves (trace m w) = []
     | true, None =>
         conversations (w_app w') = conversations (w_app w)
         /\ currentConversationId (w_app w') = currentConversationId (w_app w)
         /\ isConfigModalOpen (w_app w') = true
         /\ saves (trace m w) = []
     | true, Some earlier =>
         exists fresh,
           conversations (w_app w') = fresh :: conversations (w_app w)
           /\ currentConversationId (w_app w') = Some (c_id fresh)
           /\ c_apiConfig fresh = earlier
           /\ c_messages fresh = []
           /\ saves (trace m w) = [fresh]
     end.
Proof.
  intros w config. cbv zeta.
  unfold outcome, after, trace, App.dispatch.
  destruct (App.handleSaveConfig (w_app w) config w) as [o w1] eqn:E.
  revert E. unfold App.handleSaveConfig.
  destruct (App.no_selection (w_app w)).
  - unfold App.handleNewConversation.
    destruct (apiConfig (w_app w)) as [[h k m]|] eqn:Ha.
    + cbn [hostname apiKey model]. run_app.
      match goal with
      | |- context [detached (db.saveConversation ?c) ?W] =>
          destruct (detached_save c W) as (opened & records & requests & -> & Hrec)
      end.
      run_app. intros E. inversion E; subst; clear E. tidy.
      repeat (split; [reflexivity|]). eexists. repeat split.
    + run_app. intros E. inversion E; subst; clear E. tidy. repeat split.
  - run_app. intros E. inversion E; subst; clear E. tidy. repeat split.
Qed.

(** ** [ChatInterface] *)

Ltac run_chat :=
  cbv beta iota zeta delta
      [ChatInterface.setLoading ChatInterface.setExtractingEmbeddings
       with_chat with_dialog with_embeddings notify];
  cbn [sh_embeddings sh_chat sh_dialog sh_notices
       ci_input ci_attachedFiles ci_loading ci_extractingEmbeddings
       dlg_hostname dlg_apiKey dlg_selectedModel dlg_models dlg_loading dlg_error
       dlg_testSuccess embeddings embeddingsFileName isEmbeddingsModalOpen fst snd].

(** X25: a submit never throws.  With a blank input and no files it does
    nothing.  Otherwise it hands the input as typed and the files to
    [onSendMessage], and ends with [loading] off: the input and the files
    are cleared when the callback resolved, and are kept, with the failure
    logged, when it was rejected. *)
Theorem submit_outcome :
  forall (onSendMessage : string -> option (list File) -> M unit) sh w,
    let s := sh_chat sh in
    let m := ChatInterface.handleSubmit s onSendMessage in
    let call := onSendMessage (ci_input s) (Some (ci_attachedFiles s)) in
    let s' := sh_chat (shell_after m sh w) in
    outcomeU m sh w = Resolved tt
    /\ sh_dialog (shell_after m sh w) = sh_dialog sh
    /\ sh_embeddings (shell_after m sh w) = sh_embeddings sh
    /\ if String.eqb (trim (ci_input s)) "" && Nat.eqb (length (ci_attachedFiles s)) 0
       then shell_after m sh w = sh /\ world_after m sh w = w
       else world_after m sh w = after call w
            /\ ci_loading s' = false
            /\ match outcome call w with
               | Resolved _ =>
                   ci_input s' = "" /\ ci_attachedFiles s' = []
                   /\ sh_notices (shell_after m sh w) = sh_notices sh
               | Rejected e =>
                   ci_input s' = ci_input s
                   /\ ci_attachedFiles s' = ci_attachedFiles s
                   /\ sh_notices (shell_after m sh w)
                      = (sh_notices sh ++ [ConsoleError "Failed to send message:" e])%list
               end.
Proof.
  intros onSendMessage sh w. cbv zeta.
  unfold ChatInterface.handleSubmit.
  destruct (String.eqb (trim (ci_input (sh_chat sh))) ""
            && Nat.eqb (length (ci_attachedFiles (sh_chat sh))) 0).
  - runU. repeat split.
  - runU. unfold outcome, after.
    destruct (onSendMessage (ci_input (sh_chat sh))
                            (Some (ci_attachedFiles (sh_chat sh))) w) as [[[]|e] w1];
      run_chat; repeat split.
Qed.

(** X26: a submit of a message that is not blank, made while no
    conversation is selected or no configuration is present, clears the
    input and the files although nothing was saved or sent. *)
Theorem submit_without_conversation_clears : forall sh w,
  App.getCurrentConversation (w_app w) = None \/ apiConfig (w_app w) = None ->
  trim (ci_input (sh_chat sh)) <> "" ->
  let m := ChatInterface.handleSubmit (sh_chat sh) app_onSendMessage in
  outcomeU m sh w = Resolved tt
  /\ world_after m sh w = w
  /\ ci_input (sh_chat (shell_after m sh w)) = ""
  /\ ci_attachedFiles (sh_chat (shell_after m sh w)) = []
  /\ ci_loading (sh_chat (shell_after m sh w)) = false.
Proof.
  intros sh w Hno Hinput. cbv zeta.
  assert (Hcall : forall content attachments,
             app_onSendMessage content attachments w = (Resolved tt, w)).
  { intros content attachments.
    unfold app_onSendMessage, App.dispatch, App.handleSendMessage.
    destruct Hno as [-> | ->]; [reflexivity|].
    now destruct (App.getCurrentConversation (w_app w)). }
  unfold ChatInterface.handleSubmit.
  apply String.eqb_neq in Hinput. rewrite Hinput. cbn [andb].
  runU. rewrite Hcall. run_chat. repeat split.
Qed.

Lemma submit_without_conversation_clears_witness :
  let sh := shell_of (mkChatInterfaceState "hello there" [notes_txt] false false)
                     empty_dialog in
  let w := world_of configured healthy (answering hello) in
  let m := ChatInterface.handleSubmit (sh_chat sh) app_onSendMessage in
  (App.getCurrentConversation (w_app w) = None \/ apiConfig (w_app w) = None)
  /\ trim (ci_input (sh_chat sh)) <> ""
  /\ outcomeU m sh w = Resolved tt
  /\ world_after m sh w = w
  /\ ci_input (sh_chat (shell_after m sh w)) = ""
  /\ ci_attachedFiles (sh_chat (shell_after m sh w)) = []
  /\ ci_loading (sh_chat (shell_after m sh w)) = false.
Proof.
  split; [left; reflexivity|]. split; [discriminate|].
  apply (submit_without_conversation_clears
           (shell_of (mkChatInterfaceState "hello there" [notes_txt] false false)
                     empty_dialog)
           (world_of configured healthy (answering hello))).
  - left; reflexivity.
  - discriminate.
Defined.

Lemma filter_index_from index : forall (xs : list File) k,
  ChatInterface.filter_index (fun i => negb (Nat.eqb i index)) k xs
  = if Nat.ltb index k then xs
    else (firstn (index - k) xs ++ skipn (S (index - k)) xs)%list.
Proof.
  induction xs as [|x xs IH]; intros k; simpl.
  - destruct (Nat.ltb index k); [reflexivity|].
    now rewrite firstn_nil.
  - rewrite IH.
    destruct (Nat.eqb k index) eqn:Ek; simpl.
    + apply Nat.eqb_eq in Ek. subst k.
      rewrite Nat.ltb_irrefl, Nat.sub_diag.
      replace (Nat.ltb index (S index)) with true
        by (symmetry; apply Nat.ltb_lt; lia).
      reflexivity.
    + apply Nat.eqb_neq in Ek.
      destruct (Nat.ltb index k) eqn:El.
      * apply Nat.ltb_lt in El.
        replace (Nat.ltb index (S k)) with true
          by (symmetry; apply Nat.ltb_lt; lia).
        reflexivity.
      * apply Nat.ltb_ge in El.
        replace (Nat.ltb index (S k)) with false
          by (symmetry; apply Nat.ltb_ge; lia).
        replace (index - k) with (S (index - S k)) by lia.
        reflexivity.
Qed.

(** X27: removing the file at an index keeps the files before it and the
    files after it, in their order; an index past the end removes
    nothing.  Selecting files appends them; a selection without files
    changes nothing. *)
Theorem removeFile_spec : forall index picked sh w,
  let files := ci_attachedFiles (sh_chat sh) in
  let removed := ci_attachedFiles (sh_chat (shell_after (ChatInterface.removeFile index) sh w)) in
  removed = (firstn index files ++ skipn (S index) files)%list
  /\ length removed = (if Nat.ltb index (length files)
                       then length files - 1 else length files)
  /\ ci_attachedFiles
       (sh_chat (shell_after (ChatInterface.handleFileSelect (Some picked)) sh w))
     = (files ++ picked)%list
  /\ ci_attachedFiles
       (sh_chat (shell_after (ChatInterface.handleFileSelect None) sh w))
     = files.
Proof.
  intros index picked sh w. cbv zeta.
  unfold ChatInterface.removeFile, ChatInterface.handleFileSelect.
  runU. run_chat.
  rewrite filter_index_from.
  replace (Nat.ltb index 0) with false by (symmetry; apply Nat.ltb_ge; lia).
  rewrite Nat.sub_0_r.
  split; [reflexivity|]. split.
  - rewrite length_app, length_firstn, length_skipn.
    destruct (Nat.ltb index (length (ci_attachedFiles (sh_chat sh)))) eqn:E.
    + apply Nat.ltb_lt in E. lia.
    + apply Nat.ltb_ge in E. lia.
  - split; [reflexivity|]. apply app_nil_r.
Qed.

(** ** [APIConfigModal] *)

Lemma fetchModels_rejects_errors config w e :
  outcome (apiService.fetchModels config) w = Rejected e ->
  exists message, e = ErrorObj message.
Proof.
  unfold outcome, apiService.fetchModels, bind, fetch, json.
  destruct (w_net w (w_fetches w)) as [message|response]; simpl.
  - intros H; inversion H; eauto.
  - destruct (r_ok response); simpl; [|intros H; inversion H; eauto].
    destruct (r_json response) as [data|]; simpl; [|intros H; inversion H; eauto].
    assert (Hmap : forall (f : JSON -> M Model) items w0 e0,
               (forall m w1, m <> JNull -> exists y, f m w1 = (Resolved y, w1)) ->
               (forall w1, exists message, f JNull w1 = (Rejected (ErrorObj message), w1)) ->
               fst (mapM f items w0) = Rejected e0 ->
               exists message, e0 = ErrorObj message).
    { intros f items w0 e0 Hok Hnull. induction items as [|m rest IH]; simpl.
      - discriminate.
      - unfold bind.
        assert (Hm : m = JNull \/ m <> JNull)
          by (destruct m; (now left) || (right; discriminate)).
        destruct Hm as [->|Hm].
        + destruct (Hnull w0) as [message ->]. simpl. intros H; inversion H; eauto.
        + destruct (Hok m w0 Hm) as [y ->].
          destruct (mapM f rest w0) as [[ys|e1] w2]; simpl in *;
            [discriminate|auto]. }
    destruct data as [| | | | |fields]; simpl;
      try (intros H; inversion H; eauto; fail).
    destruct (truthy (lookup "data" fields) && isArray (lookup "data" fields)).
    + apply Hmap.
      * intros m w1 Hm. destruct m; try congruence; eexists; reflexivity.
      * intros w1. eexists; reflexivity.
    + destruct (truthy (lookup "models" fields) && isArray (lookup "models" fields));
        [|discriminate].
      apply Hmap.
      * intros m w1 Hm. destruct m; try congruence; eexists; reflexivity.
      * intros w1. eexists; reflexivity.
Qed.

(** X28: a connection test never throws, makes the one request of the model
    listing and ends with [loading] off.  When the listing resolves, the
    models are shown, the test is marked successful, the error is cleared,
    and the first model's id is selected exactly when models were listed
    and no model was selected.  When it fails, its message is the error,
    the models are cleared, and the selection is as it was. *)
Theorem test_connection_outcome : forall sh w,
  let s := sh_dialog sh in
  let m := APIConfigModal.handleTestConnection s in
  let config :=
    mkSettings (dlg_hostname s) (APIConfigModal.key_or_undefined (dlg_apiKey s)) "" in
  let s' := sh_dialog (shell_after m sh w) in
  outcomeU m sh w = Resolved tt
  /\ world_after m sh w = after (apiService.fetchModels config) w
  /\ dlg_loading s' = false
  /\ dlg_hostname s' = dlg_hostname s
  /\ dlg_apiKey s' = dlg_apiKey s
  /\ sh_chat (shell_after m sh w) = sh_chat sh
  /\ match outcome (apiService.fetchModels config) w with
     | Resolved models =>
         dlg_models s' = models
         /\ dlg_testSuccess s' = true
         /\ dlg_error s' = ""
         /\ dlg_selectedModel s'
            = match models with
              | first_model :: _ =>
                  if truthy (dlg_selectedModel s) then dlg_selectedModel s
                  else md_id first_model
              | [] => dlg_selectedModel s
              end
     | Rejected e =>
         dlg_models s' = []
         /\ dlg_testSuccess s' = false
         /\ e = ErrorObj (dlg_error s')
         /\ dlg_selectedModel s' = dlg_selectedModel s
     end.
Proof.
  intros sh w. cbv zeta.
  unfold APIConfigModal.handleTestConnection.
  runU. unfold APIConfigModal.setLoading. run_chat.
  assert (Herr := fetchModels_rejects_errors
                    (mkSettings (dlg_hostname (sh_dialog sh))
                                (APIConfigModal.key_or_undefined (dlg_apiKey (sh_dialog sh)))
                                "") w).
  unfold outcome, after in *.
  destruct (apiService.fetchModels _ w) as [[models|e] w1]; cbn [fst snd] in *.
  - destruct models as [|first_model models]; cbn [length Nat.ltb Nat.leb andb];
      [|destruct (truthy (dlg_selectedModel (sh_dialog sh)))];
      cbn [negb andb APIConfigModal.first_id]; runU; run_chat; repeat split.
  - destruct (Herr e eq_refl) as [message ->]. run_chat. repeat split.
Qed.

(** X29: saving from the dialog, whatever [onSave] and [onClose] are.  With
    an empty host name or no model selected, only the error text is set:
    neither callback runs and nothing else changes.  Otherwise [onSave]
    receives the host name as typed, the key, left out exactly when the key
    field is empty, and the selected model as it is; [onClose] then runs
    when [onSave] returned, and does not when it threw; the dialog sets no
    error of its own. *)
Theorem dialog_save_outcome :
  forall (onSave : string -> option string -> value -> U unit) (onClose : U unit) sh w,
    let s := sh_dialog sh in
    let m := APIConfigModal.handleSave s onSave onClose in
    let key := APIConfigModal.key_or_undefined (dlg_apiKey s) in
    let call := onSave (dlg_hostname s) key (dlg_selectedModel s) in
    (key = None <-> dlg_apiKey s = "")
    /\ (forall k, key = Some k <-> dlg_apiKey s = k /\ k <> "")
    /\ if String.eqb (dlg_hostname s) "" || negb (truthy (dlg_selectedModel s))
       then outcomeU m sh w = Resolved tt
            /\ world_after m sh w = w
            /\ shell_after m sh w
               = mkShell (sh_embeddings sh) (sh_chat sh)
                         (mkAPIConfigModalState
                            (dlg_hostname s) (dlg_apiKey s) (dlg_selectedModel s)
                            (dlg_models s) (dlg_loading s)
                            "Please provide hostname and select a model"
                            (dlg_testSuccess s))
                         (sh_notices sh)
       else match outcomeU call sh w with
            | Resolved _ =>
                m sh w = onClose (shell_after call sh w) (world_after call sh w)
            | Rejected e =>
                m sh w = (Rejected e, shell_after call sh w, world_after call sh w)
            end.
Proof.
  intros onSave onClose sh w. cbv zeta.
  split; [|split].
  - unfold APIConfigModal.key_or_undefined.
    destruct (String.eqb (dlg_apiKey (sh_dialog sh)) "") eqn:E.
    + apply String.eqb_eq in E. tauto.
    + apply String.eqb_neq in E. split; [discriminate | tauto].
  - intros k. unfold APIConfigModal.key_or_undefined.
    destruct (String.eqb (dlg_apiKey (sh_dialog sh)) "") eqn:E.
    + apply String.eqb_eq in E. split; [discriminate|]. intros [? ?]. congruence.
    + apply String.eqb_neq in E. split.
      * intros H. inversion H; subst. auto.
      * intros [-> _]. reflexivity.
  - unfold APIConfigModal.handleSave.
    destruct (String.eqb (dlg_hostname (sh_dialog sh)) ""
              || negb (truthy (dlg_selectedModel (sh_dialog sh)))).
    + runU. run_chat. repeat split.
    + runU.
      destruct (onSave (dlg_hostname (sh_dialog sh))
                       (APIConfigModal.key_or_undefined (dlg_apiKey (sh_dialog sh)))
                       (dlg_selectedModel (sh_dialog sh)) sh w) as [[[[]|e] sh1] w1];
        reflexivity.
Qed.

(** ** Extracting embeddings *)

Lemma getEmbedding_run config request sh w :
  exists o,
    APIService.getEmbedding config request sh w
    = (o,
       notify (EmbeddingFetch
                 (apiService.normalizeHostname (hostname config) ++ "/v1/embeddings")
                 "POST" (apiService.getHeaders (apiKey config)) request) sh,
       mkWorld (w_app w) (w_dbOpen w) (w_store w) (w_localStorage w) (w_log w)
               (w_clock w) (w_clockReads w) (w_uuid w) (w_uuidReads w)
               (w_idbFault w) (w_idbRequests w) (w_net w) (S (w_fetches w)))
    /\ forall e, o = Rejected e -> exists message, e = ErrorObj message.
Proof.
  unfold APIService.getEmbedding, fetch_embedding. runU.
  destruct (w_net w (w_fetches w)) as [message|response].
  { eexists; split; [reflexivity|]. intros e H; inversion H; eauto. }
  destruct (r_ok response); cbn [negb];
    [|eexists; split; [reflexivity|]; intros e H; inversion H; eauto].
  unfold json. destruct (r_json response) as [data|]; runU;
    [|eexists; split; [reflexivity|]; intros e H; inversion H; eauto].
  destruct data as [| | | | |fields]; cbn;
    try (eexists; split; [reflexivity|]; intros e H; inversion H; eauto; fail).
  destruct (when_truthy (and_then (lookup "data" fields)
                                  (get_opt (first (lookup "data" fields)) "embedding")));
    cbn; [eexists; split; [reflexivity|]; discriminate|].
  destruct (when_truthy (lookup "embedding" fields)); cbn;
    eexists; split; try reflexivity; try discriminate.
  intros e H; inversion H; eauto.
Qed.

(** X30: extracting embeddings never throws and never touches the
    conversations, the selection, the store, the log of saves and chat
    requests, or the other components.  Without a configuration it does
    nothing.  When the text of the file cannot be read, no request is made
    and the alert [Failed to extract embeddings: Unknown error] is raised.
    Otherwise one embedding request is made, for the configured model and
    the text of the file: when it resolves, its answer is shown under the
    file's name with the dialog open; when it fails, what is shown stays as
    it was and one alert carries [Failed to extract embeddings: ] followed
    by the failure's message. *)
Theorem extract_embeddings_outcome : forall s file sh w,
  let m := Embeddings.handleExtractEmbeddings s file in
  let sh' := shell_after m sh w in
  let w' := world_after m sh w in
  outcomeU m sh w = Resolved tt
  /\ w_app w' = w_app w /\ w_store w' = w_store w /\ w_log w' = w_log w
  /\ sh_chat sh' = sh_chat sh /\ sh_dialog sh' = sh_dialog sh
  /\ match apiConfig s with
     | None => sh' = sh /\ w' = w
     | Some cfg =>
         match apiService.readFileAsText file with
         | None =>
             w' = w
             /\ sh_embeddings sh' = sh_embeddings sh
             /\ sh_notices sh'
                = (sh_notices sh
                   ++ [Alert "Failed to extract embeddings: Unknown error"])%list
         | Some text =>
             let request := mkEmbeddingRequest (model cfg) text in
             let fetched :=
               EmbeddingFetch
                 (apiService.normalizeHostname (hostname cfg) ++ "/v1/embeddings")
                 "POST" (apiService.getHeaders (apiKey cfg)) request in
             w_fetches w' = S (w_fetches w)
             /\ match outcomeU (APIService.getEmbedding cfg request) sh w with
                | Resolved vector =>
                    sh_embeddings sh' = mkEmbeddingsState vector (f_name file) true
                    /\ sh_notices sh' = (sh_notices sh ++ [fetched])%list
                | Rejected e =>
                    sh_embeddings sh' = sh_embeddings sh
                    /\ exists message,
                         e = ErrorObj message
                         /\ sh_notices sh'
                            = (sh_notices sh
                               ++ [fetched;
                                   Alert ("Failed to extract embeddings: "
                                            ++ message)])%list
                end
         end
     end.
Proof.
  intros s file sh w. cbv zeta.
  unfold Embeddings.handleExtractEmbeddings.
  destruct (apiConfig s) as [cfg|]; [|runU; repeat split].
  unfold apiService.readFileAsText, settle.
  destruct (f_text file) as [text|]; runU; run; runU.
  - destruct (getEmbedding_run cfg (mkEmbeddingRequest (model cfg) text) sh w)
      as (o & -> & Herr).
    destruct o as [vector|e]; run_chat.
    + repeat (split; [reflexivity|]). split; reflexivity.
    + destruct (Herr e eq_refl) as [message ->].
      repeat (split; [reflexivity|]).
      exists message. split; [reflexivity|]. now rewrite <- app_assoc.
  - run_chat. repeat split.
Qed.

(** A file of text under a Gateway that answers in the flat shape. *)
Example extract_embeddings_of_notes :
  let response := ok_response (JObject [("embedding", JArray [JNum 1; JNum 2])]) in
  let w := world_of configured healthy (answering response) in
  let sh := shell_of idle_chat empty_dialog in
  let m := Embeddings.handleExtractEmbeddings configured notes_txt in
  sh_embeddings (shell_after m sh w)
  = mkEmbeddingsState (JArray [JNum 1; JNum 2]) "a.txt" true
  /\ sh_notices (shell_after m sh w)
     = [EmbeddingFetch "https://api.example.com/v1/embeddings" "POST"
                       [("Content-Type", "application/json")]
                       (mkEmbeddingRequest "m1" "T")].
Proof. vm_compute. repeat split. Qed.
